(** * shakyo: the configuration validator of [TrainingState]

    A shallow embedding of [TrainingState.validateConfig], of the schema
    registry [trainingStateSchema] it iterates over and of the per-field
    step [validateEntry], together with the part of the JavaScript
    runtime these functions rely on: dynamically typed values, [typeof],
    the string conversion of template literals (which can throw), IEEE
    binary64 numbers with their comparisons and [Math.floor]. *)

From Stdlib Require Import ZArith QArith Qabs Qround String Ascii List Lia.
From Stdlib Require Import Floats.SpecFloat.
From Stdlib Require DecimalString.
From stdpp Require Import base option gmap strings list fin_maps.

Open Scope string_scope.
Open Scope list_scope.
Open Scope Z_scope.

(** ** JavaScript numbers

    A [number] is an IEEE 754 binary64 datum, represented by the
    Standard Library's [spec_float] at precision 53 and maximal exponent
    1024: signed zeros, signed infinities, NaN, and finite values
    [(-1)^s * m * 2^e]. *)

Module Number.

Definition prec : Z := 53.
Definition emax : Z := 1024.

Abbreviation number := spec_float.

Definition NaN : number := S754_nan.
Definition Infinity : number := S754_infinity false.

(** The datum nearest to [m * 2^e] (ties to even); exact whenever
    [m * 2^e] is representable. *)
Definition ofDyadic (m e : Z) : number := binary_normalize prec emax m e false.

(** A numeric literal denoting an integer. *)
Definition ofZ (z : Z) : number := ofDyadic z 0.

(** Membership in binary64. *)
Definition valid (x : number) : bool := valid_binary prec emax x.

(** The relational operators [<], [<=], [>], [>=] on two numbers; every
    comparison with NaN is false. *)
Definition lt (x y : number) : bool := SFltb x y.
Definition le (x y : number) : bool := SFleb x y.
Definition gt (x y : number) : bool := SFltb y x.
Definition ge (x y : number) : bool := SFleb y x.

(** [Math.floor]: NaN, the infinities and the zeros are returned as
    they are; so is a finite number without fractional bits; otherwise
    the mantissa is divided by the power of two, rounding towards minus
    infinity, and the quotient is stored again as a number.  A positive
    number below one gives [+0]. *)
Definition floor (x : number) : number :=
  match x with
  | S754_finite s m e =>
      if 0 <=? e then x
      else binary_normalize prec emax (cond_Zopp s (Zpos m) / 2 ^ (- e)) 0 s
  | _ => x
  end.

(** The real value of a number that has one. *)
Definition toQ (x : number) : option Q :=
  match x with
  | S754_zero _ => Some 0%Q
  | S754_finite s m e =>
      Some (if 0 <=? e then inject_Z (cond_Zopp s (Zpos m) * 2 ^ e)
            else Qmake (cond_Zopp s (Zpos m)) (Z.to_pos (2 ^ (- e))))
  | _ => None
  end.

End Number.

Abbreviation number := spec_float.

(** ** JavaScript values *)

Module Js.

(** A value of type [any].  An object (or function) is represented by
    what the validator can observe of it: whether it is callable, which
    decides its [typeof], and the completion of its conversion to a
    string, [None] when that conversion throws (an object without a
    usable [toString], such as [Object.create(null)]). *)
Inductive value : Type :=
| VUndefined
| VNull
| VBoolean (b : bool)
| VNumber (n : number)
| VString (s : string)
| VBigInt (z : Z)
| VSymbol (description : string)
| VObject (callable : bool) (toStringResult : option string).

(** The [typeof] operator. *)
Definition typeof (v : value) : string :=
  match v with
  | VUndefined => "undefined"
  | VNull => "object"
  | VBoolean _ => "boolean"
  | VNumber _ => "number"
  | VString _ => "string"
  | VBigInt _ => "bigint"
  | VSymbol _ => "symbol"
  | VObject callable _ => if callable then "function" else "object"
  end.

(** What a call can raise. *)
Inductive exn : Type :=
| TypeError (message : string).

(** How the evaluation of an expression ends. *)
Inductive completion (A : Type) : Type :=
| Return (a : A)
| Throw (e : exn).
Arguments Return {A} a.
Arguments Throw {A} e.

(** What a run does that an observer can see: calls of a schema
    entry's [check] method, and probes of the file system. *)
Inductive event : Type :=
| CheckCalled (key : string) (argument : value)
| ExistsSyncCalled (path : string).

(** A computation: the events it emitted, oldest first, and how it
    ended.  After a [Throw] nothing more happens. *)
Definition M (A : Type) : Type := (list event * completion A)%type.

Definition ret {A} (a : A) : M A := ([], Return a).

Definition throw {A} (e : exn) : M A := ([], Throw e).

Definition emit (ev : event) : M unit := ([ev], Return tt).

Definition bind {A B} (m : M A) (k : A → M B) : M B :=
  match m with
  | (t, Return a) => let '(t', r) := k a in (t ++ t', r)
  | (t, Throw e) => (t, Throw e)
  end.

Definition trace {A} (m : M A) : list event := fst m.
Definition outcome {A} (m : M A) : completion A := snd m.

#[export] Instance M_ret : MRet M := @ret.
#[export] Instance M_bind : MBind M := fun A B k m => bind m k.

Definition quote : string := String "034"%char EmptyString.

Definition Boolean_toString (b : bool) : string :=
  if b then "true" else "false".

Definition BigInt_toString (z : Z) : string :=
  DecimalString.NilZero.string_of_int (Z.to_int z).

End Js.

Export Js.

(** ** The schema registry and the validator *)

Module TrainingState.

(** [type Primitive = number | string | boolean], indexed by the tag
    that a schema entry stores in its [type] field. *)
Inductive PrimitiveType : Type :=
| TNumber
| TString
| TBoolean.

Definition typeName (t : PrimitiveType) : string :=
  match t with
  | TNumber => "number"
  | TString => "string"
  | TBoolean => "boolean"
  end.

Definition Primitive (t : PrimitiveType) : Type :=
  match t with
  | TNumber => number
  | TString => string
  | TBoolean => bool
  end.

(** A primitive seen as a value of type [any]. *)
Definition toValue {t : PrimitiveType} : Primitive t → value :=
  match t with
  | TNumber => VNumber
  | TString => VString
  | TBoolean => VBoolean
  end.

(** The test [typeof v === t], giving the value at type [T] when it
    succeeds. *)
Definition asPrimitive (t : PrimitiveType) (v : value) : option (Primitive t) :=
  match t, v with
  | TNumber, VNumber n => Some n
  | TString, VString s => Some s
  | TBoolean, VBoolean b => Some b
  | _, _ => None
  end.

(** [type ValidatedEntry<T> = { valid: T } | { error: string }] *)
Inductive ValidatedEntry (T : Type) : Type :=
| ValidatedEntryValid (valid : T)
| ValidatedEntryInvalid (error : string).
Arguments ValidatedEntryValid {T} valid.
Arguments ValidatedEntryInvalid {T} error.

(** Forgetting the type parameter of an entry, as the instantiation
    [SchemaEntry<any>] of [Schema] does. *)
Definition eraseEntry {t} (r : ValidatedEntry (Primitive t)) : ValidatedEntry value :=
  match r with
  | ValidatedEntryValid x => ValidatedEntryValid (toValue x)
  | ValidatedEntryInvalid msg => ValidatedEntryInvalid msg
  end.

(** [interface SchemaEntry<T extends Primitive>]; [defaultValue?: T]
    is an optional property. *)
Record SchemaEntry : Type := {
  type : PrimitiveType;
  isRequired : bool;
  defaultValue : option (Primitive type);
  check : Primitive type → M (ValidatedEntry (Primitive type));
  description : string;
}.

(** [interface Schema { [index: string]: SchemaEntry<any> }], with its
    keys in the order [for ... in] enumerates them: the order in which
    the object literal lists them. *)
Definition Schema : Type := list (string * SchemaEntry).

(** [type LoadedConfig = Record<string, any>] *)
Abbreviation LoadedConfig := (gmap string value).

(** The property access [loadedConfig[key]]: [undefined] for a key the
    object does not have. *)
Definition get (loadedConfig : LoadedConfig) (key : string) : value :=
  default VUndefined (loadedConfig !! key).

(** [type ValidatedTrainingState =
      ValidatedTrainingStateValid | ValidatedTrainingStateInvalid] *)
Inductive ValidatedTrainingState : Type :=
| ValidatedTrainingStateValid (valid : LoadedConfig)
| ValidatedTrainingStateInvalid (errors : list string).

Section Validator.

(** The host: the file system as [fs.existsSync] sees it during one
    validation, and the conversion of a number to a string
    ([Number::toString], radix 10). *)
Variable existsSync : string → bool.
Variable Number_toString : number → string.

(** The conversion [ToString] that a template literal applies to an
    interpolated value; it throws a [TypeError] on a symbol, and on an
    object that cannot be converted to a primitive. *)
Definition ToString (v : value) : M string :=
  match v with
  | VUndefined => mret "undefined"
  | VNull => mret "null"
  | VBoolean b => mret (Boolean_toString b)
  | VNumber n => mret (Number_toString n)
  | VString s => mret s
  | VBigInt z => mret (BigInt_toString z)
  | VSymbol _ => throw (TypeError "Cannot convert a Symbol value to a string")
  | VObject _ (Some s) => mret s
  | VObject _ None => throw (TypeError "Cannot convert object to primitive value")
  end.

Definition winProbability : SchemaEntry := {|
  type := TNumber;
  check := λ n : number,
    if Number.gt n (Number.ofZ 0) && Number.lt n (Number.ofZ 1) then
      mret (ValidatedEntryValid n)
    else
      mret (ValidatedEntryInvalid
        ("The probability must be strictly between 0 and 1, but was "
           +:+ Number_toString n));
  isRequired := true;
  defaultValue := Some (Number.ofDyadic 3 (-2));
  description :=
    "Probability of winning on each challenge that the program should aim for.";
|}.

Definition fragmentLength : SchemaEntry := {|
  type := TNumber;
  check := λ n : number,
    if Number.ge n (Number.ofZ 1) then
      mret (ValidatedEntryValid (Number.floor n))
    else
      mret (ValidatedEntryInvalid
        ("The fragment length must be positive, but was "
           +:+ Number_toString n));
  defaultValue := Some (Number.ofZ 40);
  isRequired := true;
  description := "Maximum length of the text fragment in each round.";
|}.

Definition challengeIndex : SchemaEntry := {|
  type := TNumber;
  check := λ n : number,
    if Number.ge n (Number.ofZ 0) then
      mret (ValidatedEntryValid (Number.floor n))
    else
      mret (ValidatedEntryInvalid
        ("The challenge index must be non-negative (0-based), but was "
           +:+ Number_toString n));
  defaultValue := Some (Number.ofZ 0);
  isRequired := false;
  description := "Index of the current challenge.";
|}.

Definition challengeFile : SchemaEntry := {|
  type := TString;
  check := λ relFilePath : string,
    _ ← emit (ExistsSyncCalled relFilePath);
    if existsSync relFilePath then
      mret (ValidatedEntryValid relFilePath)
    else
      mret (ValidatedEntryInvalid
        ("Couldn't find the file " +:+ quote +:+ relFilePath +:+ quote +:+ "."));
  isRequired := true;
  defaultValue := None;
  description := "Path to the file containing the textual data.";
|}.

Definition maxAttempts : SchemaEntry := {|
  type := TNumber;
  check := λ n : number,
    if Number.ge n (Number.ofZ 1) then
      mret (ValidatedEntryValid (Number.floor n))
    else
      mret (ValidatedEntryInvalid
        ("Expected a positive integer number of attempts, but got "
           +:+ Number_toString n +:+ "."));
  isRequired := false;
  defaultValue := Some (Number.ofZ 3);
  description := "Maximum number of attempts allowed on same fragment.";
|}.

Definition trainingStateSchema : Schema := [
  ("winProbability", winProbability);
  ("fragmentLength", fragmentLength);
  ("challengeIndex", challengeIndex);
  ("challengeFile", challengeFile);
  ("maxAttempts", maxAttempts)
].

(** The message of the branch for an absent required setting. *)
Definition missingMessage (key : string) (schemaEntry : SchemaEntry) : string :=
  "Missing required setting '" +:+ key +:+ "' of type "
    +:+ typeName (type schemaEntry)
    +:+ " (" +:+ description schemaEntry +:+ ")".

(** The message of the branch for a value of another type, given the
    string the value converts to. *)
Definition invalidTypeMessage (key : string) (schemaEntry : SchemaEntry)
    (shown : string) : string :=
  "Invalid type of " +:+ key +:+ ", expected a "
    +:+ typeName (type schemaEntry) +:+ ", but got: " +:+ shown.

(** [schemaEntry.defaultValue!]: the property read; the non-null
    assertion has no effect at run time, so an entry without the
    property gives [undefined]. *)
Definition defaultValue_read (schemaEntry : SchemaEntry) : value :=
  match defaultValue schemaEntry with
  | Some d => toValue d
  | None => VUndefined
  end.

(** The per-field step.  [asPrimitive] is the test
    [typeof entryValue === schemaEntry.type]; the call of
    [schemaEntry.check] is recorded by a [CheckCalled] event. *)
Definition validateEntry (key : string) (schemaEntry : SchemaEntry)
    (entryValue : value) : M (ValidatedEntry value) :=
  if String.eqb (typeof entryValue) "undefined" then
    if isRequired schemaEntry then
      mret (ValidatedEntryInvalid (missingMessage key schemaEntry))
    else
      mret (ValidatedEntryValid (defaultValue_read schemaEntry))
  else
    match asPrimitive (type schemaEntry) entryValue with
    | Some t =>
        _ ← emit (CheckCalled key entryValue);
        r ← check schemaEntry t;
        mret (eraseEntry r)
    | None =>
        shown ← ToString entryValue;
        mret (ValidatedEntryInvalid (invalidTypeMessage key schemaEntry shown))
    end.

(** The body of [for (let key in trainingStateSchema)], run over the
    keys that remain, with the two accumulators [errors] and
    [result]. *)
Fixpoint validateConfig_loop (keys : Schema) (loadedConfig : LoadedConfig)
    (errors : list string) (result : LoadedConfig)
    : M (list string * LoadedConfig) :=
  match keys with
  | [] => mret (errors, result)
  | (key, schema) :: keys' =>
      validatedEntry ← validateEntry key schema (get loadedConfig key);
      match validatedEntry with
      | ValidatedEntryInvalid error =>
          validateConfig_loop keys' loadedConfig (errors ++ [error]) result
      | ValidatedEntryValid valid =>
          validateConfig_loop keys' loadedConfig errors (<[key := valid]> result)
      end
  end.

Definition validateConfig (loadedConfig : LoadedConfig) : M ValidatedTrainingState :=
  '(errors, result) ← validateConfig_loop trainingStateSchema loadedConfig [] ∅;
  if (0 <? Z.of_nat (length errors)) then
    mret (ValidatedTrainingStateInvalid errors)
  else
    mret (ValidatedTrainingStateValid result).

(** *** Vocabulary for the statements below *)

(** A value that a template literal can interpolate. *)
Definition convertible (v : value) : Prop :=
  ∃ shown, outcome (ToString v) = Return shown.

(** The step of the loop for one declared key. *)
Definition validateField (loadedConfig : LoadedConfig)
    (field : string * SchemaEntry) : M (ValidatedEntry value) :=
  validateEntry field.1 field.2 (get loadedConfig field.1).

(** The error a step ended with, if it ended with one. *)
Definition entryError (c : completion (ValidatedEntry value)) : option string :=
  match c with
  | Return (ValidatedEntryInvalid error) => Some error
  | _ => None
  end.

(** The value a step accepted, if it accepted one. *)
Definition entryValid (c : completion (ValidatedEntry value)) : option value :=
  match c with
  | Return (ValidatedEntryValid valid) => Some valid
  | _ => None
  end.

(** The step of every one of [keys] completes: it ends with an error
    entry or a valid entry, not with an exception. *)
Definition completes (loadedConfig : LoadedConfig) (keys : Schema) : Prop :=
  ∀ field, field ∈ keys →
    ∃ validatedEntry, outcome (validateField loadedConfig field) = Return validatedEntry.

(** The fields whose step ends with an error, in the order of [keys]. *)
Definition invalidFields (loadedConfig : LoadedConfig) (keys : Schema) : Schema :=
  List.filter
    (λ field, bool_decide (is_Some (entryError (outcome (validateField loadedConfig field)))))
    keys.

(** The errors of these fields, in the order of [keys]. *)
Definition fieldErrors (loadedConfig : LoadedConfig) (keys : Schema) : list string :=
  omap (λ field, entryError (outcome (validateField loadedConfig field))) keys.

(** [result] after the accepted values of [keys] were stored in it. *)
Fixpoint fieldValues (loadedConfig : LoadedConfig) (keys : Schema)
    (result : LoadedConfig) : LoadedConfig :=
  match keys with
  | [] => result
  | field :: keys' =>
      fieldValues loadedConfig keys'
        (match entryValid (outcome (validateField loadedConfig field)) with
         | Some valid => <[field.1 := valid]> result
         | None => result
         end)
  end.

(** The events of all steps, in the order of [keys]. *)
Definition fieldTraces (loadedConfig : LoadedConfig) (keys : Schema) : list event :=
  concat (List.map (λ field, trace (validateField loadedConfig field)) keys).

(** The error strings of a result; none for a valid one. *)
Definition errorsOf (r : ValidatedTrainingState) : list string :=
  match r with
  | ValidatedTrainingStateInvalid errors => errors
  | ValidatedTrainingStateValid _ => []
  end.

(** The schema entry without its [defaultValue] property. *)
Definition withoutDefault (schemaEntry : SchemaEntry) : SchemaEntry := {|
  type := type schemaEntry;
  isRequired := isRequired schemaEntry;
  defaultValue := None;
  check := check schemaEntry;
  description := description schemaEntry;
|}.

End Validator.

(** The check of the entry declared under [key] is called somewhere in
    the events [t]. *)
Definition checkCalled (key : string) (t : list event) : Prop :=
  ∃ argument, CheckCalled key argument ∈ t.

(** A schema entry whose check calls no check of a schema entry. *)
Definition quiet (e : SchemaEntry) : Prop :=
  ∀ x key argument, CheckCalled key argument ∉ trace (check e x).

(** The keys of the registry, in declaration order. *)
Definition declaredKeys : list string :=
  ["winProbability"; "fragmentLength"; "challengeIndex"; "challengeFile"; "maxAttempts"].

End TrainingState.

Export TrainingState.

(** ** Sample hosts and configurations *)

Module Samples.

(** A file system holding the one file [./example_text.txt]. *)
Definition existsSync (path : string) : bool :=
  String.eqb path "./example_text.txt".

(** A stand-in for [Number::toString]: it prints 0, 1, 2, 3, NaN and
    the infinities, and gives a placeholder for every other number. *)
Definition Number_toString (n : number) : string :=
  match n with
  | S754_zero _ => "0"
  | S754_finite false 4503599627370496 (-52) => "1"
  | S754_finite false 4503599627370496 (-51) => "2"
  | S754_finite false 6755399441055744 (-51) => "3"
  | S754_nan => "NaN"
  | S754_infinity false => "Infinity"
  | S754_infinity true => "-Infinity"
  | _ => "<number>"
  end.

(** The literal [2.9]: the binary64 datum nearest to 29/10, that is
    [6530219459687219 * 2^-51]. *)
Definition n2_9 : number := Number.ofDyadic 6530219459687219 (-51).

(** [{ winProbability: 0.5, fragmentLength: 80,
       challengeFile: './example_text.txt' }], the configuration of
    [main.ts]. *)
Definition mainConfig : gmap string value :=
  <["winProbability" := VNumber (Number.ofDyadic 1 (-1))]>
    (<["fragmentLength" := VNumber (Number.ofZ 80)]>
      (<["challengeFile" := VString "./example_text.txt"]> ∅)).

(** [{ winProbability: 1.5, fragmentLength: -3,
       challengeFile: './missing.txt' }] *)
Definition badConfig : gmap string value :=
  <["winProbability" := VNumber (Number.ofDyadic 3 (-1))]>
    (<["fragmentLength" := VNumber (Number.ofZ (-3))]>
      (<["challengeFile" := VString "./missing.txt"]> ∅)).

(** [{ winProbability: undefined }]: the key is present, its value is
    [undefined]. *)
Definition undefinedConfig : gmap string value :=
  {["winProbability" := VUndefined]}.

(** [{ winProbability: Symbol('p') }] *)
Definition symbolConfig : gmap string value :=
  {["winProbability" := VSymbol "p"]}.

(** [{ winProbability: o }] for an object [o] that cannot be converted
    to a primitive, such as [Object.create(null)] or the object that
    [JSON.parse] makes of [{"toString": 1}]. *)
Definition objectConfig : gmap string value :=
  {["winProbability" := VObject false None]}.

(** [{ fragmentLength: '80' }]: a string where a number is declared. *)
Definition stringLengthConfig : gmap string value :=
  {["fragmentLength" := VString "80"]}.

(** [{ winProbability: 1.5, fragmentLength: Symbol('len'),
       maxAttempts: 0 }]: winProbability and maxAttempts are out of
    range, fragmentLength is not a number and challengeFile is
    absent. *)
Definition symbolLengthConfig : gmap string value :=
  <["winProbability" := VNumber (Number.ofDyadic 3 (-1))]>
    (<["fragmentLength" := VSymbol "len"]>
      (<["maxAttempts" := VNumber (Number.ofZ 0)]> ∅)).

(** [{ winProbability: 1.5, fragmentLength: 'len', maxAttempts: 0 }]:
    [symbolLengthConfig] with a string in the place of the symbol. *)
Definition wordLengthConfig : gmap string value :=
  <["winProbability" := VNumber (Number.ofDyadic 3 (-1))]>
    (<["fragmentLength" := VString "len"]>
      (<["maxAttempts" := VNumber (Number.ofZ 0)]> ∅)).

(** [mainConfig] with a key that the schema does not declare. *)
Definition extendedConfig : gmap string value :=
  <["verbose" := VBoolean true]> mainConfig.

(** [{ winProbability: 0.5, fragmentLength: 80, challengeIndex: 0,
       challengeFile: './example_text.txt', maxAttempts: 3 }] *)
Definition mainResult : gmap string value :=
  <["winProbability" := VNumber (Number.ofDyadic 1 (-1))]>
    (<["fragmentLength" := VNumber (Number.ofZ 80)]>
      (<["challengeIndex" := VNumber (Number.ofZ 0)]>
        (<["challengeFile" := VString "./example_text.txt"]>
          (<["maxAttempts" := VNumber (Number.ofZ 3)]> ∅)))).

End Samples.

(** ** Vocabulary for the accepted values and for the events of a run *)

Module Range.

(** A number with a real value strictly between 0 and 1. *)
Definition strictlyBetween01 (x : number) : Prop :=
  ∃ q, Number.toQ x = Some q ∧ (0 < q)%Q ∧ (q < 1)%Q.

(** A number that is [+Infinity], or whose real value is an integer not
    below [k]. *)
Definition integerAtLeast (k : Z) (x : number) : Prop :=
  x = Number.Infinity
  ∨ ∃ z q, k <= z ∧ Number.toQ x = Some q ∧ (q == inject_Z z)%Q.

(** Every number that a raw mapping holds is a binary64 number. *)
Definition wellFormed (loadedConfig : gmap string value) : Prop :=
  ∀ key n, loadedConfig !! key = Some (VNumber n) → Number.valid n = true.

(** A number that is [+Infinity], or whose real value is not below [k]. *)
Definition atLeast (k : Z) (x : number) : Prop :=
  x = Number.Infinity ∨ ∃ q, Number.toQ x = Some q ∧ (inject_Z k <= q)%Q.

(** What the five steps ask of a raw mapping to accept it: numbers in
    range under winProbability and fragmentLength, the path of a file
    that exists under challengeFile, and under challengeIndex and
    maxAttempts either [undefined] or a number in range. *)
Definition acceptable (existsSync : string → bool)
    (loadedConfig : gmap string value) : Prop :=
  (∃ p, get loadedConfig "winProbability" = VNumber p ∧ strictlyBetween01 p)
  ∧ (∃ l, get loadedConfig "fragmentLength" = VNumber l ∧ atLeast 1 l)
  ∧ (get loadedConfig "challengeIndex" = VUndefined
     ∨ ∃ i, get loadedConfig "challengeIndex" = VNumber i ∧ atLeast 0 i)
  ∧ (∃ f, get loadedConfig "challengeFile" = VString f ∧ existsSync f = true)
  ∧ (get loadedConfig "maxAttempts" = VUndefined
     ∨ ∃ a, get loadedConfig "maxAttempts" = VNumber a ∧ atLeast 1 a).

(** The conjunct of [acceptable] that speaks of [key]: what the step of
    this one key asks of the raw mapping. *)
Definition acceptableAt (existsSync : string → bool)
    (loadedConfig : gmap string value) (key : string) : Prop :=
  (key = "winProbability"
   ∧ ∃ p, get loadedConfig key = VNumber p ∧ strictlyBetween01 p)
  ∨ (key = "fragmentLength"
     ∧ ∃ l, get loadedConfig key = VNumber l ∧ atLeast 1 l)
  ∨ (key = "challengeIndex"
     ∧ (get loadedConfig key = VUndefined
        ∨ ∃ i, get loadedConfig key = VNumber i ∧ atLeast 0 i))
  ∨ (key = "challengeFile"
     ∧ ∃ f, get loadedConfig key = VString f ∧ existsSync f = true)
  ∨ (key = "maxAttempts"
     ∧ (get loadedConfig key = VUndefined
        ∨ ∃ a, get loadedConfig key = VNumber a ∧ atLeast 1 a)).

(** The three kinds of error string for the value [v] read under
    [key]: a required setting is missing, the value is of another type
    than the declared one, or the check of the entry turned it down
    with a message of its own. *)
Definition complaint (Number_toString : number → string) (key : string)
    (schemaEntry : SchemaEntry) (v : value) (error : string) : Prop :=
  (v = VUndefined ∧ isRequired schemaEntry = true
   ∧ error = "Missing required setting '" +:+ key +:+ "' of type "
               +:+ typeName (type schemaEntry)
               +:+ " (" +:+ description schemaEntry +:+ ")")
  ∨ (v ≠ VUndefined ∧ typeof v ≠ typeName (type schemaEntry)
     ∧ ∃ shown, outcome (ToString Number_toString v) = Return shown
                ∧ error = "Invalid type of " +:+ key +:+ ", expected a "
                            +:+ typeName (type schemaEntry)
                            +:+ ", but got: " +:+ shown)
  ∨ (∃ x, asPrimitive (type schemaEntry) v = Some x
          ∧ typeof v = typeName (type schemaEntry)
          ∧ outcome (check schemaEntry x) = Return (ValidatedEntryInvalid error)).

End Range.

Module Trace.

(** The paths that were probed, oldest first. *)
Definition probes (t : list event) : list string :=
  omap (λ ev, match ev with ExistsSyncCalled path => Some path | _ => None end) t.

(** The keys whose check was called, oldest first. *)
Definition checkedKeys (t : list event) : list string :=
  omap (λ ev, match ev with CheckCalled key _ => Some key | _ => None end) t.

(** The events that a run over all declared keys can emit at most, in
    the order of the keys. *)
Definition allEvents (loadedConfig : gmap string value) : list event :=
  [CheckCalled "winProbability" (get loadedConfig "winProbability");
   CheckCalled "fragmentLength" (get loadedConfig "fragmentLength");
   CheckCalled "challengeIndex" (get loadedConfig "challengeIndex");
   CheckCalled "challengeFile" (get loadedConfig "challengeFile")]
  ++ match get loadedConfig "challengeFile" with
     | VString path => [ExistsSyncCalled path]
     | _ => []
     end
  ++ [CheckCalled "maxAttempts" (get loadedConfig "maxAttempts")].

End Trace.

(** ** The script [main.ts] *)

Module Main.

(** How the script ends, as far as these sources say: it writes lines
    with [console.error] and calls [exit], or it calls [runTrainingLoop],
    a function that the sources do not contain, having written nothing. *)
Inductive ending : Type :=
| Exited (stderr : list string) (status : Z)
| TrainingLoopEntered (initialState : gmap string value).

(** The conversion of [errors.length] in a template literal. *)
Definition length_toString (n : nat) : string :=
  DecimalString.NilZero.string_of_uint (Nat.to_uint n).

(** The [if ('errors' in validatedInitialState) ... else ...] of the
    script. *)
Definition report (validatedInitialState : ValidatedTrainingState) : ending :=
  match validatedInitialState with
  | ValidatedTrainingStateInvalid errors =>
      Exited
        (List.map (λ err, "ERROR: " +:+ err) errors
           ++ ["There were " +:+ length_toString (length errors)
                 +:+ " errors in the configuration. Exit."])
        1
  | ValidatedTrainingStateValid initialState => TrainingLoopEntered initialState
  end.

(** The script: it validates the configuration it spells out, which is
    [Samples.mainConfig], and reports. *)
Definition main (existsSync : string → bool) (Number_toString : number → string)
    : M ending :=
  validatedInitialState ← validateConfig existsSync Number_toString Samples.mainConfig;
  mret (report validatedInitialState).

End Main.

(** ** Facts about binary64 numbers *)

Module NumberFacts.
Import Number.

Lemma digits2_pos_bounds (m : positive) :
  2 ^ (Zpos (digits2_pos m) - 1) <= Zpos m < 2 ^ Zpos (digits2_pos m).
Proof.
  induction m as [p IH | p IH |]; simpl digits2_pos.
  - rewrite Pos2Z.inj_succ.
    replace (Z.succ (Zpos (digits2_pos p)) - 1) with (Z.succ (Zpos (digits2_pos p) - 1)) by lia.
    rewrite !Z.pow_succ_r by lia. lia.
  - rewrite Pos2Z.inj_succ.
    replace (Z.succ (Zpos (digits2_pos p)) - 1) with (Z.succ (Zpos (digits2_pos p) - 1)) by lia.
    rewrite !Z.pow_succ_r by lia. lia.
  - simpl. lia.
Qed.

Lemma Zpos_iter_xO (m d : positive) :
  Zpos (Pos.iter xO m d) = Zpos m * 2 ^ Zpos d.
Proof.
  induction d as [| d IH] using Pos.peano_ind.
  - simpl. lia.
  - rewrite Pos.iter_succ, Pos2Z.inj_xO, IH, Pos2Z.inj_succ, Z.pow_succ_r by lia. lia.
Qed.

Lemma digits2_pos_iter_xO (m d : positive) :
  digits2_pos (Pos.iter xO m d) = (digits2_pos m + d)%positive.
Proof.
  induction d as [| d IH] using Pos.peano_ind.
  - simpl. lia.
  - rewrite Pos.iter_succ. simpl. rewrite IH. lia.
Qed.

(** What membership in binary64 says of a finite number: a normal
    number has 53 digits, a subnormal one fewer, at the least exponent. *)
Lemma valid_finite (s : bool) (m : positive) (e : Z) :
  valid (S754_finite s m e) = true ↔
  (Zpos (digits2_pos m) = 53 ∧ -1074 <= e <= 971)
  ∨ (Zpos (digits2_pos m) < 53 ∧ e = -1074).
Proof.
  unfold valid, valid_binary, bounded, canonical_mantissa, fexp, SpecFloat.emin, prec, emax.
  rewrite andb_true_iff, Z.eqb_eq, Z.leb_le. lia.
Qed.

Lemma valid_finite_lt (s : bool) (m : positive) (e : Z) :
  valid (S754_finite s m e) = true → Zpos m < 2 ^ 53.
Proof.
  intros H. apply valid_finite in H.
  destruct (digits2_pos_bounds m) as [_ Hhi].
  assert (2 ^ Zpos (digits2_pos m) <= 2 ^ 53) by (apply Z.pow_le_mono_r; lia). lia.
Qed.

(** Rounding a mantissa that is already canonical changes nothing. *)
Lemma binary_round_aux_canonical (s : bool) (m : positive) (e : Z) :
  valid (S754_finite s m e) = true →
  binary_round_aux prec emax s (Zpos m) e loc_Exact = S754_finite s m e.
Proof.
  intros H. pose proof H as H'. apply valid_finite in H'.
  assert (Hf : fexp prec emax (Zpos (digits2_pos m) + e) - e = 0)
    by (unfold fexp, SpecFloat.emin, prec, emax; lia).
  unfold binary_round_aux, shr_fexp. simpl Zdigits2. rewrite Hf. simpl.
  rewrite Hf. simpl.
  replace (e <=? emax - prec) with true; [done |].
  symmetry. apply Z.leb_le. unfold prec, emax. lia.
Qed.

(** An integer of at most 53 digits is a number: [binary_normalize]
    stores it exactly. *)
Lemma binary_round_integer (s : bool) (p : positive) :
  Zpos p <= 2 ^ 52 →
  ∃ m e, binary_round prec emax s p 0 = S754_finite s m e
         ∧ valid (S754_finite s m e) = true
         ∧ -52 <= e <= 0 ∧ Zpos m = Zpos p * 2 ^ (- e).
Proof.
  intros Hp.
  assert (Hd : Zpos (digits2_pos p) <= 53).
  { destruct (digits2_pos_bounds p) as [Hlo _].
    destruct (Z.le_gt_cases (Zpos (digits2_pos p)) 53) as [| Hgt]; [done |].
    assert (2 ^ 53 <= 2 ^ (Zpos (digits2_pos p) - 1)) by (apply Z.pow_le_mono_r; lia).
    lia. }
  unfold binary_round.
  replace (fexp prec emax (Zpos (digits2_pos p) + 0)) with (Zpos (digits2_pos p) - 53)
    by (unfold fexp, SpecFloat.emin, prec, emax; lia).
  unfold shl_align.
  destruct (Zpos (digits2_pos p) - 53 - 0) as [| k | k] eqn:Hk; [| lia |].
  - assert (Hv : valid (S754_finite s p 0) = true) by (apply valid_finite; lia).
    exists p, 0. rewrite binary_round_aux_canonical by done.
    repeat split; [done | lia | lia | simpl; lia].
  - assert (Hv : valid (S754_finite s (Pos.iter xO p k) (Zpos (digits2_pos p) - 53)) = true).
    { apply valid_finite. rewrite digits2_pos_iter_xO. lia. }
    exists (Pos.iter xO p k), (Zpos (digits2_pos p) - 53).
    rewrite binary_round_aux_canonical by done.
    repeat split; [done | lia | lia |].
    rewrite Zpos_iter_xO. f_equal. f_equal. lia.
Qed.

Lemma toQ_scaled (s : bool) (m p : positive) (e : Z) :
  e <= 0 → Zpos m = Zpos p * 2 ^ (- e) →
  ∃ q, toQ (S754_finite s m e) = Some q ∧ (q == inject_Z (cond_Zopp s (Zpos p)))%Q.
Proof.
  intros He Hm. unfold toQ. eexists. split; [reflexivity |].
  assert (Hpos : 0 < 2 ^ (- e)) by (apply Z.pow_pos_nonneg; lia).
  destruct (Z.leb_spec 0 e) as [H0 | H0].
  - assert (e = 0) as -> by lia. rewrite Z.pow_0_r in *.
    replace (cond_Zopp s (Zpos m) * 1) with (cond_Zopp s (Zpos p)); [reflexivity |].
    destruct s; unfold cond_Zopp; lia.
  - unfold Qeq. cbn [Qnum Qden inject_Z]. rewrite Z2Pos.id by done.
    destruct s; unfold cond_Zopp; lia.
Qed.

Lemma floor_toQ (x : number) (q : Q) :
  valid x = true → toQ x = Some q →
  valid (floor x) = true
  ∧ ∃ q', toQ (floor x) = Some q' ∧ (q' == inject_Z (Qfloor q))%Q.
Proof.
  intros Hv Hq. destruct x as [s | s | | s m e]; try discriminate Hq.
  { injection Hq as <-. split; [done |]. by exists 0%Q. }
  unfold toQ in Hq. injection Hq as <-. unfold floor.
  destruct (Z.leb_spec 0 e) as [He | He].
  { split; [done |]. eexists. split; [unfold toQ; destruct (Z.leb_spec 0 e); [done | lia] |].
    by rewrite Qfloor_Z. }
  pose proof (valid_finite_lt _ _ _ Hv) as Hm.
  assert (Hpow : 2 <= 2 ^ (- e)).
  { change 2 with (2 ^ 1) at 1. apply Z.pow_le_mono_r; lia. }
  unfold Qfloor. rewrite Z2Pos.id by lia.
  assert (Hz : - 2 ^ 52 <= cond_Zopp s (Zpos m) / 2 ^ (- e) <= 2 ^ 52).
  { destruct s; unfold cond_Zopp.
    - split; [apply Z.div_le_lower_bound; nia |].
      transitivity 0; [| lia]. apply Z.lt_le_incl, Z.div_lt_upper_bound; lia.
    - split; [transitivity 0; [lia | apply Z.div_pos; lia] |].
      apply Z.lt_le_incl, Z.div_lt_upper_bound; nia. }
  assert (Hsign : match cond_Zopp s (Zpos m) / 2 ^ (- e) with
                  | Z0 => True | Zpos _ => s = false | Zneg _ => s = true end).
  { destruct (cond_Zopp s (Zpos m) / 2 ^ (- e)) as [| p | p] eqn:Ez; [done | |];
      destruct s; try done; unfold cond_Zopp in Ez.
    - assert (Z.neg m / 2 ^ (- e) < 0) by (apply Z.div_lt_upper_bound; lia). lia.
    - assert (0 <= Zpos m / 2 ^ (- e)) by (apply Z.div_pos; lia). lia. }
  unfold binary_normalize.
  destruct (cond_Zopp s (Zpos m) / 2 ^ (- e)) as [| p | p].
  - split; [done |]. by exists 0%Q.
  - destruct (binary_round_integer false p) as (m' & e' & -> & Hv' & He' & Hm'); [lia |].
    split; [exact Hv' |]. apply (toQ_scaled false m' p e'); [lia | done].
  - destruct (binary_round_integer true p) as (m' & e' & -> & Hv' & He' & Hm'); [lia |].
    split; [exact Hv' |]. apply (toQ_scaled true m' p e'); [lia | done].
Qed.

Lemma one_eq : ofZ 1 = S754_finite false 4503599627370496 (-52).
Proof. vm_compute. reflexivity. Qed.

(** Comparing a number with one compares its real value with 1. *)
Lemma compare_one (x : number) (q : Q) :
  valid x = true → toQ x = Some q →
  SFcompare x (ofZ 1) = Some (q ?= 1)%Q.
Proof.
  intros Hv Hq. rewrite one_eq.
  destruct x as [s | s | | s m e]; try discriminate Hq.
  { injection Hq as <-. reflexivity. }
  unfold toQ in Hq. injection Hq as <-.
  pose proof Hv as Hv'. apply valid_finite in Hv'.
  destruct (digits2_pos_bounds m) as [Hlo Hhi].
  unfold SFcompare. f_equal. unfold Qcompare.
  assert (Hp : ∀ k, 0 <= k → 0 < 2 ^ k) by (intros; apply Z.pow_pos_nonneg; lia).
  destruct s; unfold cond_Zopp.
  { symmetry. apply Z.compare_lt_iff.
    destruct (Z.leb_spec 0 e); cbn [Qnum Qden inject_Z]; [| lia].
    assert (Z.neg m * 2 ^ e < 0) by (apply Z.mul_neg_pos; [lia | by apply Hp]).
    lia. }
  destruct (Z.compare_spec e (-52)) as [Heq | Hlt | Hgt].
  - destruct (Z.leb_spec 0 e); [lia |]. cbn [Qnum Qden inject_Z].
    rewrite Z2Pos.id by (apply Hp; lia).
    rewrite Z.mul_1_r, Z.mul_1_l.
    replace (2 ^ (- e)) with (Zpos 4503599627370496)
      by (rewrite Heq; vm_compute; reflexivity).
    cbn [Z.compare]. rewrite Pos.compare_cont_spec.
    destruct (m ?= 4503599627370496)%positive; reflexivity.
  - symmetry. apply Z.compare_lt_iff.
    destruct (Z.leb_spec 0 e); [lia |]. cbn [Qnum Qden inject_Z].
    rewrite Z2Pos.id by (apply Hp; lia).
    assert (2 ^ Zpos (digits2_pos m) <= 2 ^ 53) by (apply Z.pow_le_mono_r; lia).
    assert (2 ^ 53 <= 2 ^ (- e)) by (apply Z.pow_le_mono_r; lia). lia.
  - symmetry. apply Z.compare_gt_iff.
    assert (Hd : Zpos (digits2_pos m) = 53) by lia. rewrite Hd in Hlo.
    destruct (Z.leb_spec 0 e); cbn [Qnum Qden inject_Z].
    + assert (1 * 2 ^ 52 <= 2 ^ e * Zpos m)
        by (apply Z.mul_le_mono_nonneg; [lia | specialize (Hp e); lia | lia | exact Hlo]).
      lia.
    + rewrite Z2Pos.id by (apply Hp; lia).
      assert (2 ^ (- e) <= 2 ^ 51) by (apply Z.pow_le_mono_r; lia). lia.
Qed.

Lemma SFcompare_swap (x y : number) :
  SFcompare y x = CompOpp <$> SFcompare x y.
Proof.
  destruct x as [s1 | s1 | | s1 m1 e1], y as [s2 | s2 | | s2 m2 e2];
    try done; try (by destruct s1); try (by destruct s2);
    try (by destruct s1, s2).
  unfold SFcompare. destruct s1, s2; try done; cbn [fmap option_fmap option_map]; f_equal;
    rewrite (Z.compare_antisym e1 e2); destruct (e1 ?= e2); cbn [CompOpp]; try done.
  - rewrite Pos.compare_cont_antisym. cbn [CompOpp]. by rewrite CompOpp_involutive.
  - by rewrite Pos.compare_cont_antisym.
Qed.

(** The operators [n >= 1] and [n < 1] of the source decide the order
    of the real values. *)
Lemma ge_one_iff (x : number) (q : Q) :
  valid x = true → toQ x = Some q →
  ge x (ofZ 1) = true ↔ (1 <= q)%Q.
Proof.
  intros Hv Hq. unfold ge, SFleb.
  rewrite SFcompare_swap, (compare_one x q Hv Hq). cbn [fmap option_fmap option_map].
  rewrite Qle_alt, <- Qcompare_antisym, CompOpp_involutive.
  destruct (1 ?= q)%Q; split; congruence.
Qed.

Lemma lt_one_iff (x : number) (q : Q) :
  valid x = true → toQ x = Some q →
  lt x (ofZ 1) = true ↔ (q < 1)%Q.
Proof.
  intros Hv Hq. unfold lt, SFltb. rewrite (compare_one x q Hv Hq), Qlt_alt.
  destruct (q ?= 1)%Q; split; congruence.
Qed.

(** A number below one is not at least one, also when it has no real
    value. *)
Lemma lt_not_ge (x y : number) : lt x y = true → ge x y = false.
Proof.
  unfold lt, ge, SFltb, SFleb. rewrite (SFcompare_swap x y).
  destruct (SFcompare x y) as [[] |]; done.
Qed.

End NumberFacts.

(** ** Facts about computations *)

Module MFacts.

(** The three laws. *)
Lemma bind_ret_l {A B} (a : A) (k : A → M B) : bind (ret a) k = k a.
Proof. unfold bind, ret. by destruct (k a). Qed.

Lemma bind_ret_r {A} (m : M A) : bind m ret = m.
Proof. destruct m as [t [a | e]]; [| done]. unfold bind, ret. by rewrite app_nil_r. Qed.

Lemma bind_assoc {A B C} (m : M A) (k : A → M B) (h : B → M C) :
  bind (bind m k) h = bind m (λ a, bind (k a) h).
Proof.
  destruct m as [t [a | e]]; [| done]. unfold bind.
  destruct (k a) as [t' [b | e]]; [| done].
  destruct (h b) as [t'' r]. by rewrite app_assoc.
Qed.

Lemma outcome_bind {A B} (m : M A) (k : A → M B) :
  outcome (bind m k) =
    match outcome m with
    | Return a => outcome (k a)
    | Throw e => Throw e
    end.
Proof. destruct m as [t [a | e]]; [| done]. unfold bind. simpl. by destruct (k a). Qed.

Lemma trace_bind {A B} (m : M A) (k : A → M B) :
  trace (bind m k) =
    trace m ++ match outcome m with
               | Return a => trace (k a)
               | Throw _ => []
               end.
Proof.
  destruct m as [t [a | e]]; unfold bind; simpl.
  - by destruct (k a).
  - by rewrite app_nil_r.
Qed.

Lemma bind_ext {A B} (m : M A) (k k' : A → M B) :
  (∀ a, k a = k' a) → bind m k = bind m k'.
Proof. intros H. destruct m as [t [a | e]]; [| done]. unfold bind. by rewrite H. Qed.

Lemma M_eq {A} (m m' : M A) :
  trace m = trace m' → outcome m = outcome m' → m = m'.
Proof. destruct m, m'. simpl. congruence. Qed.

End MFacts.

(** ** Facts about the validator *)

Section ValidatorFacts.

Import MFacts.

Variable existsSync : string → bool.
Variable Number_toString : number → string.

Local Abbreviation validateEntry := (TrainingState.validateEntry Number_toString).
Local Abbreviation validateField := (TrainingState.validateField Number_toString).
Local Abbreviation loop := (validateConfig_loop Number_toString).
Local Abbreviation validateConfig := (TrainingState.validateConfig existsSync Number_toString).
Local Abbreviation schema := (trainingStateSchema existsSync Number_toString).
Local Abbreviation completes := (TrainingState.completes Number_toString).
Local Abbreviation fieldErrors := (TrainingState.fieldErrors Number_toString).
Local Abbreviation fieldValues := (TrainingState.fieldValues Number_toString).
Local Abbreviation fieldTraces := (TrainingState.fieldTraces Number_toString).
Local Abbreviation invalidFields := (TrainingState.invalidFields Number_toString).

(** *** The loop *)

Lemma loop_cons field keys cfg errs res :
  loop (field :: keys) cfg errs res =
    bind (validateField cfg field) (λ validatedEntry,
      match validatedEntry with
      | ValidatedEntryInvalid error => loop keys cfg (errs ++ [error]) res
      | ValidatedEntryValid valid => loop keys cfg errs (<[field.1 := valid]> res)
      end).
Proof. by destruct field. Qed.

Lemma completes_cons cfg field keys :
  completes cfg (field :: keys) ↔
  (∃ validatedEntry, outcome (validateField cfg field) = Return validatedEntry)
  ∧ completes cfg keys.
Proof.
  unfold TrainingState.completes. split.
  - intros H. split; [apply H; left | intros f Hf; apply H; by right].
  - intros [H1 H2] f Hf. apply elem_of_cons in Hf as [-> | Hf]; auto.
Qed.

Lemma fieldErrors_cons cfg field keys :
  fieldErrors cfg (field :: keys) =
    match entryError (outcome (validateField cfg field)) with
    | Some error => error :: fieldErrors cfg keys
    | None => fieldErrors cfg keys
    end.
Proof. reflexivity. Qed.

Lemma fieldErrors_app cfg keys keys' :
  fieldErrors cfg (keys ++ keys') = fieldErrors cfg keys ++ fieldErrors cfg keys'.
Proof. apply omap_app. Qed.

(** When every step completes, the loop runs all of them and returns
    the errors and the accepted values it collected. *)
Lemma loop_completes keys cfg errs res :
  completes cfg keys →
  loop keys cfg errs res =
    (fieldTraces cfg keys,
     Return (errs ++ fieldErrors cfg keys, fieldValues cfg keys res)).
Proof.
  revert errs res. induction keys as [| field keys IH]; intros errs res H.
  - simpl. by rewrite app_nil_r.
  - apply completes_cons in H as [[ve Hve] H].
    rewrite loop_cons, fieldErrors_cons. unfold TrainingState.fieldTraces. simpl.
    destruct (validateField cfg field) as [t c] eqn:E. simpl in Hve. subst c.
    simpl. destruct ve as [v | err]; rewrite (IH _ _ H); simpl.
    + done.
    + by rewrite <- app_assoc.
Qed.

(** A loop that returns has completed every step. *)
Lemma loop_returns keys cfg errs res x :
  outcome (loop keys cfg errs res) = Return x → completes cfg keys.
Proof.
  revert errs res. induction keys as [| field keys IH]; intros errs res H.
  - intros f Hf. by apply elem_of_nil in Hf.
  - rewrite loop_cons, outcome_bind in H. apply completes_cons.
    destruct (outcome (validateField cfg field)) as [ve | e] eqn:E; [| done].
    split; [by exists ve |]. destruct ve; eauto.
Qed.

(** The only way out of the loop before its end: a step that throws ends
    the loop with its exception, after the steps of the keys before it. *)
Lemma loop_throws before field after cfg errs res e :
  completes cfg before →
  outcome (validateField cfg field) = Throw e →
  loop (before ++ field :: after) cfg errs res =
    (fieldTraces cfg before ++ trace (validateField cfg field), Throw e).
Proof.
  revert errs res. induction before as [| f before IH]; intros errs res Hc He.
  - simpl app. rewrite loop_cons.
    destruct (validateField cfg field) as [t c]. simpl in He. by subst c.
  - apply completes_cons in Hc as [[ve Hve] Hc].
    change ((f :: before) ++ field :: after) with (f :: (before ++ field :: after)).
    rewrite loop_cons. unfold TrainingState.fieldTraces. simpl concat.
    destruct (validateField cfg f) as [t c] eqn:E. simpl in Hve. subst c.
    simpl. destruct ve as [v | err]; rewrite (IH _ _ Hc He); simpl;
      by rewrite <- app_assoc.
Qed.

(** Every event of the loop is an event of the step of some key. *)
Lemma loop_trace keys cfg errs res ev :
  ev ∈ trace (loop keys cfg errs res) →
  ∃ field, field ∈ keys ∧ ev ∈ trace (validateField cfg field).
Proof.
  revert errs res. induction keys as [| field keys IH]; intros errs res H.
  - simpl in H. by apply elem_of_nil in H.
  - rewrite loop_cons, trace_bind in H. apply elem_of_app in H as [H | H].
    + exists field. split; [left | done].
    + destruct (outcome (validateField cfg field)) as [[v | err] | e];
        [| | by apply elem_of_nil in H];
        apply IH in H as (f & Hf & Hev); exists f; (split; [by right | done]).
Qed.

(** The loop reads the configuration at the declared keys only. *)
Lemma loop_ext keys cfg cfg' errs res :
  (∀ field, field ∈ keys → get cfg field.1 = get cfg' field.1) →
  loop keys cfg errs res = loop keys cfg' errs res.
Proof.
  revert errs res. induction keys as [| field keys IH]; intros errs res H; [done |].
  rewrite !loop_cons. unfold TrainingState.validateField.
  rewrite (H field) by left. apply bind_ext.
  intros [v | err]; apply IH; intros f Hf; apply H; by right.
Qed.

(** *** One step *)

Lemma typeof_undefined v : String.eqb (typeof v) "undefined" = true ↔ v = VUndefined.
Proof. destruct v as [| | | | | | | [] ?]; simpl; split; done. Qed.

Lemma asPrimitive_None t v : asPrimitive t v = None ↔ typeof v ≠ typeName t.
Proof. destruct t, v as [| | | | | | | [] ?]; simpl; split; done. Qed.

Lemma asPrimitive_Some t v x :
  asPrimitive t v = Some x → v = toValue x ∧ typeof v = typeName t ∧ v ≠ VUndefined.
Proof. destruct t, v; simpl; intros H; simplify_eq; done. Qed.

Lemma get_absent (cfg : gmap string value) key : cfg !! key = None → get cfg key = VUndefined.
Proof. unfold get. by intros ->. Qed.

Lemma get_present (cfg : gmap string value) key v : cfg !! key = Some v → get cfg key = v.
Proof. unfold get. by intros ->. Qed.

Lemma validateEntry_undefined key e :
  validateEntry key e VUndefined =
    ([], Return (if isRequired e
                 then ValidatedEntryInvalid (missingMessage key e)
                 else ValidatedEntryValid (defaultValue_read e))).
Proof. unfold TrainingState.validateEntry. simpl. by destruct (isRequired e). Qed.

Lemma validateEntry_mismatch key e v :
  v ≠ VUndefined → typeof v ≠ typeName (type e) →
  validateEntry key e v =
    bind (ToString Number_toString v) (λ shown,
      ([], Return (ValidatedEntryInvalid (invalidTypeMessage key e shown)))).
Proof.
  intros Hv Ht. unfold TrainingState.validateEntry.
  destruct (String.eqb (typeof v) "undefined") eqn:E; [by apply typeof_undefined in E |].
  apply asPrimitive_None in Ht. by rewrite Ht.
Qed.

Lemma validateEntry_typed key e v x :
  asPrimitive (type e) v = Some x →
  validateEntry key e v =
    bind (emit (CheckCalled key v)) (λ _,
      bind (check e x) (λ r, ([], Return (eraseEntry r)))).
Proof.
  intros Hx. unfold TrainingState.validateEntry.
  destruct (String.eqb (typeof v) "undefined") eqn:E.
  - apply typeof_undefined in E. by apply asPrimitive_Some in Hx as (_ & _ & ?).
  - by rewrite Hx.
Qed.

(** The only call of a check in a step is the call of the step's own
    entry, on the value read from the configuration, and only for a
    value of the declared type. *)
Lemma validateEntry_checkCalled key e v k a :
  quiet e →
  CheckCalled k a ∈ trace (validateEntry key e v) →
  k = key ∧ a = v ∧ v ≠ VUndefined ∧ typeof v = typeName (type e).
Proof.
  intros Hq H.
  destruct (String.eqb (typeof v) "undefined") eqn:Hv.
  { apply typeof_undefined in Hv as ->.
    rewrite validateEntry_undefined in H. by apply elem_of_nil in H. }
  assert (v ≠ VUndefined) by (intros ->; done). clear Hv.
  destruct (asPrimitive (type e) v) as [x |] eqn:E.
  - rewrite (validateEntry_typed _ _ _ _ E) in H.
    apply asPrimitive_Some in E as (_ & Ht & _).
    rewrite trace_bind in H. simpl in H.
    apply elem_of_cons in H as [H | H]; [by simplify_eq |].
    rewrite trace_bind in H. apply elem_of_app in H as [H | H]; [by apply Hq in H |].
    destruct (outcome (check e x)); by apply elem_of_nil in H.
  - apply asPrimitive_None in E. rewrite (validateEntry_mismatch _ _ _ ltac:(done) E) in H.
    rewrite trace_bind in H. destruct v as [| | | | | | | ? []]; by apply elem_of_nil in H.
Qed.

(** *** The registry *)

Lemma schema_keys : List.map fst schema = declaredKeys.
Proof. reflexivity. Qed.

Lemma schema_cases field :
  field ∈ schema →
  field = ("winProbability", winProbability Number_toString)
  ∨ field = ("fragmentLength", fragmentLength Number_toString)
  ∨ field = ("challengeIndex", challengeIndex Number_toString)
  ∨ field = ("challengeFile", challengeFile existsSync)
  ∨ field = ("maxAttempts", maxAttempts Number_toString).
Proof.
  unfold trainingStateSchema. intros H.
  repeat (apply elem_of_cons in H as [H | H]; [tauto |]).
  by apply elem_of_nil in H.
Qed.

Lemma schema_NoDup : NoDup (List.map fst schema).
Proof. rewrite schema_keys. unfold declaredKeys. by apply (bool_decide_unpack _). Qed.

Lemma schema_functional key e e' :
  (key, e) ∈ schema → (key, e') ∈ schema → e = e'.
Proof.
  intros H H'. apply schema_cases in H, H'.
  destruct H as [H | [H | [H | [H | H]]]], H' as [H' | [H' | [H' | [H' | H']]]];
    by simplify_eq.
Qed.

Lemma schema_declared field : field ∈ schema → field.1 ∈ declaredKeys.
Proof. intros H. rewrite <- schema_keys. by apply list_elem_of_fmap_2. Qed.

Lemma schema_quiet field : field ∈ schema → quiet field.2.
Proof.
  intros H x key argument Hev. apply schema_cases in H.
  destruct H as [-> | [-> | [-> | [-> | ->]]]]; simpl in *.
  - destruct (_ && _); by apply elem_of_nil in Hev.
  - destruct (Number.ge _ _); by apply elem_of_nil in Hev.
  - destruct (Number.ge _ _); by apply elem_of_nil in Hev.
  - destruct (existsSync x); simpl in Hev;
      apply elem_of_cons in Hev as [Hev | Hev]; try done; by apply elem_of_nil in Hev.
  - destruct (Number.ge _ _); by apply elem_of_nil in Hev.
Qed.

(** No check of the registry throws. *)
Lemma schema_check_returns field x :
  field ∈ schema → ∃ r, outcome (check field.2 x) = Return r.
Proof.
  intros H. apply schema_cases in H.
  destruct H as [-> | [-> | [-> | [-> | ->]]]]; simpl in *.
  - destruct (_ && _); eauto.
  - destruct (Number.ge _ _); eauto.
  - destruct (Number.ge _ _); eauto.
  - destruct (existsSync x); eauto.
  - destruct (Number.ge _ _); eauto.
Qed.

(** *** Collected errors and values *)

Lemma entry_cases (c : completion (ValidatedEntry value)) :
  (∃ v, c = Return (ValidatedEntryValid v) ∧ entryValid c = Some v ∧ entryError c = None)
  ∨ (∃ msg, c = Return (ValidatedEntryInvalid msg)
            ∧ entryValid c = None ∧ entryError c = Some msg)
  ∨ (∃ e, c = Throw e ∧ entryValid c = None ∧ entryError c = None).
Proof. destruct c as [[v | msg] | e]; eauto 8. Qed.

Lemma fieldErrors_nil cfg keys field :
  completes cfg keys → fieldErrors cfg keys = [] → field ∈ keys →
  ∃ v, outcome (validateField cfg field) = Return (ValidatedEntryValid v).
Proof.
  induction keys as [| f keys IH]; intros Hc He Hf; [by apply elem_of_nil in Hf |].
  apply completes_cons in Hc as [[ve Hve] Hc]. rewrite fieldErrors_cons, Hve in He.
  destruct ve as [v | msg]; [| done]. simpl in He.
  apply elem_of_cons in Hf as [-> | Hf]; eauto.
Qed.

Lemma fieldErrors_invalidFields cfg keys :
  Forall2
    (λ field error,
       outcome (validateField cfg field) = Return (ValidatedEntryInvalid error))
    (invalidFields cfg keys) (fieldErrors cfg keys).
Proof.
  induction keys as [| f keys IH]; [constructor |].
  rewrite fieldErrors_cons. unfold TrainingState.invalidFields. simpl.
  destruct (entry_cases (outcome (validateField cfg f)))
    as [(v & E & _ & ->) | [(msg & E & _ & ->) | (e & E & _ & ->)]].
  - rewrite bool_decide_eq_false_2; [done | by intros []].
  - rewrite bool_decide_eq_true_2 by eauto. by constructor.
  - rewrite bool_decide_eq_false_2; [done | by intros []].
Qed.

Lemma invalidFields_sublist cfg keys : invalidFields cfg keys `sublist_of` keys.
Proof.
  unfold TrainingState.invalidFields. induction keys as [| f keys IH]; [done |].
  simpl. destruct (bool_decide _); by constructor.
Qed.

Lemma fieldValues_lookup_other cfg keys res key :
  key ∉ List.map fst keys → fieldValues cfg keys res !! key = res !! key.
Proof.
  revert res. induction keys as [| f keys IH]; intros res H; [done |].
  simpl in *. apply not_elem_of_cons in H as [Hne H]. rewrite IH by done.
  destruct (entryValid _); [by rewrite lookup_insert_ne | done].
Qed.

Lemma fieldValues_lookup cfg keys res key e v :
  NoDup (List.map fst keys) → (key, e) ∈ keys →
  outcome (validateField cfg (key, e)) = Return (ValidatedEntryValid v) →
  fieldValues cfg keys res !! key = Some v.
Proof.
  revert res. induction keys as [| f keys IH]; intros res Hnd Hin Hv;
    [by apply elem_of_nil in Hin |].
  simpl in Hnd. apply NoDup_cons in Hnd as [Hf Hnd].
  apply elem_of_cons in Hin as [<- | Hin].
  - simpl. rewrite Hv. simpl. rewrite fieldValues_lookup_other by done.
    by rewrite lookup_insert_eq.
  - simpl. by apply IH.
Qed.

Lemma fieldValues_dom cfg keys res :
  (∀ field, field ∈ keys →
     ∃ v, outcome (validateField cfg field) = Return (ValidatedEntryValid v)) →
  dom (fieldValues cfg keys res) = dom res ∪ list_to_set (List.map fst keys).
Proof.
  revert res. induction keys as [| f keys IH]; intros res H.
  - simpl. by rewrite union_empty_r_L.
  - destruct (H f) as [v Hv]; [left |]. simpl. rewrite Hv. simpl.
    rewrite IH by (intros; apply H; by right). rewrite dom_insert_L.
    by rewrite (union_comm_L {[f.1]}), <- union_assoc_L.
Qed.

(** *** The whole validation *)

Lemma validateConfig_unfold cfg :
  validateConfig cfg =
    bind (loop schema cfg [] ∅) (λ '(errors, result),
      if 0 <? Z.of_nat (length errors)
      then ([], Return (ValidatedTrainingStateInvalid errors))
      else ([], Return (ValidatedTrainingStateValid result))).
Proof. reflexivity. Qed.

(** When every step completes, all of them are run, and the result is
    the list of all errors if there is one, and else the object of all
    accepted values. *)
Lemma validateConfig_completes cfg :
  completes cfg schema →
  validateConfig cfg =
    (fieldTraces cfg schema,
     Return match fieldErrors cfg schema with
            | [] => ValidatedTrainingStateValid (fieldValues cfg schema ∅)
            | _ :: _ => ValidatedTrainingStateInvalid (fieldErrors cfg schema)
            end).
Proof.
  intros H. rewrite validateConfig_unfold, (loop_completes _ _ _ _ H).
  rewrite app_nil_l.
  generalize (fieldValues cfg schema ∅), (fieldTraces cfg schema), (fieldErrors cfg schema).
  intros obj t [| msg errs]; unfold bind; simpl; by rewrite app_nil_r.
Qed.

Lemma validateConfig_throws before field after cfg e :
  schema = before ++ field :: after →
  completes cfg before →
  outcome (validateField cfg field) = Throw e →
  validateConfig cfg =
    (fieldTraces cfg before ++ trace (validateField cfg field), Throw e).
Proof.
  intros Hs Hc He. rewrite validateConfig_unfold, Hs.
  by rewrite (loop_throws _ _ _ _ _ _ _ Hc He).
Qed.

Lemma validateConfig_returns cfg r :
  outcome (validateConfig cfg) = Return r → completes cfg schema.
Proof.
  rewrite validateConfig_unfold, outcome_bind. intros H.
  destruct (outcome (loop schema cfg [] ∅)) as [x | e] eqn:E; [| done].
  by apply loop_returns in E.
Qed.

Lemma validateConfig_trace cfg ev :
  ev ∈ trace (validateConfig cfg) →
  ∃ field, field ∈ schema ∧ ev ∈ trace (validateField cfg field).
Proof.
  rewrite validateConfig_unfold, trace_bind. intros H.
  apply elem_of_app in H as [H | H]; [by apply loop_trace in H |].
  destruct (outcome (loop schema cfg [] ∅)) as [[errs res] | e];
    [destruct (0 <? _) |]; by apply elem_of_nil in H.
Qed.

Lemma validateConfig_ext cfg cfg' :
  (∀ key, key ∈ declaredKeys → get cfg key = get cfg' key) →
  validateConfig cfg = validateConfig cfg'.
Proof.
  intros H. rewrite !validateConfig_unfold. f_equal.
  apply loop_ext. intros field Hf. by apply H, schema_declared.
Qed.

(** A step that emits nothing leaves its check uncalled in the whole
    run. *)
Lemma validateConfig_not_checkCalled cfg key e :
  (key, e) ∈ schema → trace (validateField cfg (key, e)) = [] →
  ¬ checkCalled key (trace (validateConfig cfg)).
Proof.
  intros Hin Ht [a Ha]. apply validateConfig_trace in Ha as ([k' e'] & Hin' & Ha).
  pose proof Ha as Ha'.
  apply validateEntry_checkCalled in Ha' as (Hk & _); [| by apply (schema_quiet _ Hin')].
  simpl in Hk. subst k'. rewrite (schema_functional _ _ _ Hin' Hin), Ht in Ha.
  by apply elem_of_nil in Ha.
Qed.

(** The error of a step stands in the result between the errors of the
    keys declared before and those of the keys declared after. *)
Lemma validateConfig_error_at cfg key e msg r :
  (key, e) ∈ schema →
  outcome (validateField cfg (key, e)) = Return (ValidatedEntryInvalid msg) →
  outcome (validateConfig cfg) = Return r →
  ∃ before after,
    schema = before ++ (key, e) :: after
    ∧ r = ValidatedTrainingStateInvalid
            (fieldErrors cfg before ++ msg :: fieldErrors cfg after).
Proof.
  intros Hin Hmsg Hr. pose proof (validateConfig_returns _ _ Hr) as Hc.
  rewrite (validateConfig_completes _ Hc) in Hr. cbn [outcome snd] in Hr.
  apply list_elem_of_split in Hin as (before & after & Hs).
  exists before, after. split; [done |].
  assert (He : fieldErrors cfg schema = fieldErrors cfg before ++ msg :: fieldErrors cfg after).
  { rewrite Hs at 1. by rewrite fieldErrors_app, fieldErrors_cons, Hmsg. }
  rewrite He in Hr. destruct (fieldErrors cfg before); simpl in Hr; by simplify_eq.
Qed.

(** An accepted value is stored in the result under its key. *)
Lemma validateConfig_valid_at cfg key e v obj :
  (key, e) ∈ schema →
  outcome (validateField cfg (key, e)) = Return (ValidatedEntryValid v) →
  outcome (validateConfig cfg) = Return (ValidatedTrainingStateValid obj) →
  obj !! key = Some v.
Proof.
  intros Hin Hv Hr. pose proof (validateConfig_returns _ _ Hr) as Hc.
  rewrite (validateConfig_completes _ Hc) in Hr. cbn [outcome snd] in Hr.
  destruct (fieldErrors cfg schema); [| done].
  assert (obj = fieldValues cfg schema ∅) as -> by congruence.
  eapply fieldValues_lookup; [apply schema_NoDup | exact Hin | exact Hv].
Qed.

(** *** When a run completes *)

Lemma convertible_cases v :
  convertible Number_toString v ↔
  (∀ description, v ≠ VSymbol description) ∧ (∀ callable, v ≠ VObject callable None).
Proof.
  unfold convertible. destruct v as [| | | | | | d | c []]; simpl; split;
    try (intros _; split; intros; done); try (intros _; eauto; done).
  - by intros [? ?].
  - intros [H _]. by destruct (H d).
  - by intros [? ?].
  - intros [_ H]. by destruct (H c).
Qed.

Lemma typeof_toValue t (x : Primitive t) : typeof (toValue x) = typeName t.
Proof. by destruct t. Qed.

Lemma toValue_convertible t (x : Primitive t) : convertible Number_toString (toValue x).
Proof. destruct t; simpl; by eexists. Qed.

(** The step of a declared key completes exactly when the value read
    for it can be converted to a string. *)
Lemma validateField_completes cfg field :
  field ∈ schema →
  (∃ validatedEntry, outcome (validateField cfg field) = Return validatedEntry)
  ↔ convertible Number_toString (get cfg field.1).
Proof.
  intros Hin. unfold TrainingState.validateField. generalize (get cfg field.1). intros v.
  destruct (String.eqb (typeof v) "undefined") eqn:Hu.
  { apply typeof_undefined in Hu as ->. rewrite validateEntry_undefined.
    split; [intros _; by exists "undefined" | eauto]. }
  assert (Hv : v ≠ VUndefined) by (intros ->; done).
  destruct (asPrimitive (type field.2) v) as [x |] eqn:E.
  - rewrite (validateEntry_typed _ _ _ _ E), !outcome_bind. simpl.
    destruct (schema_check_returns field x Hin) as [r Hr]. rewrite Hr.
    apply asPrimitive_Some in E as (-> & _ & _).
    split; [intros _ | eauto]. apply toValue_convertible.
  - apply asPrimitive_None in E. rewrite (validateEntry_mismatch _ _ _ Hv E), outcome_bind.
    unfold convertible. destruct (outcome (ToString Number_toString v)) as [shown | e].
    + simpl. split; eauto.
    + split; intros [? ?]; done.
Qed.

Lemma completes_convertible cfg :
  completes cfg schema ↔
  ∀ key, key ∈ declaredKeys → convertible Number_toString (get cfg key).
Proof.
  unfold TrainingState.completes. split.
  - intros H key Hkey. rewrite <- schema_keys in Hkey.
    apply list_elem_of_fmap in Hkey as (field & -> & Hin).
    apply validateField_completes; auto.
  - intros H field Hin. apply validateField_completes; [done |].
    by apply H, schema_declared.
Qed.

Lemma fieldErrors_cons_inv cfg keys msg errs :
  fieldErrors cfg keys = msg :: errs →
  ∃ field, field ∈ keys
           ∧ outcome (validateField cfg field) = Return (ValidatedEntryInvalid msg).
Proof.
  intros H. pose proof (fieldErrors_invalidFields cfg keys) as HF. rewrite H in HF.
  apply Forall2_cons_inv_r in HF as (field & fields & Hf & _ & Hfs).
  exists field. split; [| done].
  pose proof (invalidFields_sublist cfg keys) as Hsub. rewrite Hfs in Hsub.
  eapply elem_of_sublist; [| exact Hsub]. left.
Qed.

(** Validation returns a result exactly when every value read under a
    declared key can be converted to a string. *)
Lemma validateConfig_returns_iff cfg :
  (∃ r, outcome (validateConfig cfg) = Return r)
  ↔ ∀ key, key ∈ declaredKeys → convertible Number_toString (get cfg key).
Proof.
  rewrite <- completes_convertible. split.
  - intros [r Hr]. by eapply validateConfig_returns.
  - intros Hc. rewrite (validateConfig_completes _ Hc). by eexists.
Qed.

Lemma ToString_trace v : trace (ToString Number_toString v) = [].
Proof. by destruct v as [| | | | | | | ? []]. Qed.

Lemma ToString_returns v shown :
  outcome (ToString Number_toString v) = Return shown →
  ToString Number_toString v = ([], Return shown).
Proof. intros H. apply M_eq; [apply ToString_trace | done]. Qed.

(** ** The claims *)

(** C1 fails on the code.  In
    [{ winProbability: 1.5, fragmentLength: Symbol('len'), maxAttempts: 0 }]
    four declared fields are invalid: winProbability and maxAttempts are
    out of range, fragmentLength is not a number and challengeFile is
    absent; the steps of winProbability, challengeFile and maxAttempts
    end with their errors.  The run yields none of the four error
    strings: the step of fragmentLength throws a [TypeError], which ends
    [validateConfig] inside its loop, after the check of winProbability
    and before the steps of challengeIndex, challengeFile and
    maxAttempts, whose check is never called.  With the string ['len']
    in the place of the symbol the run goes through all five fields and
    returns the four errors in declaration order. *)
Theorem C1_exception_stops_the_loop :
  validateConfig Samples.symbolLengthConfig =
    ([CheckCalled "winProbability" (VNumber (Number.ofDyadic 3 (-1)))],
     Throw (TypeError "Cannot convert a Symbol value to a string"))
  ∧ ¬ checkCalled "maxAttempts" (trace (validateConfig Samples.symbolLengthConfig))
  ∧ outcome (validateField Samples.symbolLengthConfig ("winProbability", winProbability Number_toString)) =
      Return (ValidatedEntryInvalid
        ("The probability must be strictly between 0 and 1, but was "
           +:+ Number_toString (Number.ofDyadic 3 (-1))))
  ∧ outcome (validateField Samples.symbolLengthConfig ("fragmentLength", fragmentLength Number_toString)) =
      Throw (TypeError "Cannot convert a Symbol value to a string")
  ∧ outcome (validateField Samples.symbolLengthConfig ("challengeFile", challengeFile existsSync)) =
      Return (ValidatedEntryInvalid
        "Missing required setting 'challengeFile' of type string (Path to the file containing the textual data.)")
  ∧ outcome (validateField Samples.symbolLengthConfig ("maxAttempts", maxAttempts Number_toString)) =
      Return (ValidatedEntryInvalid
        ("Expected a positive integer number of attempts, but got "
           +:+ Number_toString (Number.ofZ 0) +:+ "."))
  ∧ validateConfig Samples.wordLengthConfig =
      ([CheckCalled "winProbability" (VNumber (Number.ofDyadic 3 (-1)));
        CheckCalled "maxAttempts" (VNumber (Number.ofZ 0))],
       Return (ValidatedTrainingStateInvalid
         ["The probability must be strictly between 0 and 1, but was "
            +:+ Number_toString (Number.ofDyadic 3 (-1));
          "Invalid type of fragmentLength, expected a number, but got: len";
          "Missing required setting 'challengeFile' of type string (Path to the file containing the textual data.)";
          "Expected a positive integer number of attempts, but got "
            +:+ Number_toString (Number.ofZ 0) +:+ "."])).
Proof.
  assert (Hrun : validateConfig Samples.symbolLengthConfig =
            ([CheckCalled "winProbability" (VNumber (Number.ofDyadic 3 (-1)))],
             Throw (TypeError "Cannot convert a Symbol value to a string")))
    by (vm_compute; reflexivity).
  split_and!; [exact Hrun | | vm_compute; reflexivity ..].
  rewrite Hrun. cbn [trace fst]. intros [argument Hin].
  apply list_elem_of_singleton in Hin. discriminate Hin.
Qed.


(** C3, as amended.  In the registry every entry that is not required
    carries a [defaultValue] of its declared type.  Of the required
    entries only challengeFile carries none (winProbability carries
    0.75 and fragmentLength 40); the [defaultValue] of a required entry
    is never read: validating against the entry with the property
    removed gives the same run. *)
Theorem C3_defaults (field : string * SchemaEntry) :
  field ∈ schema →
  (isRequired field.2 = false →
     ∃ d, defaultValue field.2 = Some d
          ∧ typeof (toValue d) = typeName (type field.2))
  ∧ (isRequired field.2 = true →
       (defaultValue field.2 = None ↔ field.1 = "challengeFile")
       ∧ ∀ key v, validateEntry key field.2 v = validateEntry key (withoutDefault field.2) v).
Proof.
  intros Hin. apply schema_cases in Hin.
  destruct Hin as [-> | [-> | [-> | [-> | ->]]]]; cbn [fst snd]; split; intros Hreq;
    try discriminate Hreq;
    try (eexists; split; [reflexivity | reflexivity]);
    (split; [split; intros; done |]);
    intros key v; unfold TrainingState.validateEntry;
    destruct (String.eqb (typeof v) "undefined"); reflexivity.
Qed.

(** C4. For a declared key that is required and absent from the raw
    mapping, the step of the key ends with exactly the error
    "Missing required setting '<key>' of type <type> (<description>)"
    and emits nothing, so the check of the key is called nowhere in the
    run; and when every declared key reads as a value that a template
    literal can convert, so that no step throws, [validateConfig]
    returns the error list that holds this error between the errors of
    the keys declared before and after. *)
Theorem C4_missing_required (key : string) (e : SchemaEntry) (cfg : gmap string value) :
  (key, e) ∈ schema → isRequired e = true → cfg !! key = None →
  validateField cfg (key, e) =
    ([], Return (ValidatedEntryInvalid
           ("Missing required setting '" +:+ key +:+ "' of type "
              +:+ typeName (type e) +:+ " (" +:+ description e +:+ ")")))
  ∧ ¬ checkCalled key (trace (validateConfig cfg))
  ∧ ((∀ k, k ∈ declaredKeys → convertible Number_toString (get cfg k)) →
     ∃ before after,
       schema = before ++ (key, e) :: after
       ∧ outcome (validateConfig cfg) =
           Return (ValidatedTrainingStateInvalid
             (fieldErrors cfg before
                ++ ("Missing required setting '" +:+ key +:+ "' of type "
                      +:+ typeName (type e) +:+ " (" +:+ description e +:+ ")")
                :: fieldErrors cfg after))).
Proof.
  intros Hin Hreq Habs.
  assert (Hstep : validateField cfg (key, e) =
            ([], Return (ValidatedEntryInvalid (missingMessage key e)))).
  { unfold TrainingState.validateField. cbn [fst snd].
    by rewrite (get_absent _ _ Habs), validateEntry_undefined, Hreq. }
  split_and!.
  - exact Hstep.
  - apply (validateConfig_not_checkCalled _ _ _ Hin). by rewrite Hstep.
  - intros Hconv. apply validateConfig_returns_iff in Hconv as [r Hr].
    destruct (validateConfig_error_at _ _ _ _ _ Hin ltac:(by rewrite Hstep) Hr)
      as (before & after & Hsplit & ->).
    by exists before, after.
Qed.

(** C5. For a declared key that is not required and absent from the
    raw mapping, the step of the key accepts the entry's [defaultValue]
    as it stands and emits nothing, so the check of the key is called
    nowhere in the run; a configuration object that [validateConfig]
    returns holds this value under the key, and one is returned when
    the other fields are valid.  The key is challengeIndex with the
    value 0, or maxAttempts with the value 3. *)
Theorem C5_default_value (key : string) (e : SchemaEntry) (cfg : gmap string value) :
  (key, e) ∈ schema → isRequired e = false → cfg !! key = None →
  (∃ d, defaultValue e = Some d
        ∧ validateField cfg (key, e) = ([], Return (ValidatedEntryValid (toValue d)))
        ∧ ((key = "challengeIndex" ∧ toValue d = VNumber (Number.ofZ 0))
           ∨ (key = "maxAttempts" ∧ toValue d = VNumber (Number.ofZ 3)))
        ∧ (∀ obj, outcome (validateConfig cfg) = Return (ValidatedTrainingStateValid obj) →
             obj !! key = Some (toValue d)))
  ∧ ¬ checkCalled key (trace (validateConfig cfg))
  ∧ ((∀ field, field ∈ schema → field.1 ≠ key →
        ∃ v, outcome (validateField cfg field) = Return (ValidatedEntryValid v)) →
     ∃ obj, outcome (validateConfig cfg) = Return (ValidatedTrainingStateValid obj)).
Proof.
  intros Hin Hreq Habs.
  assert (Hstep : validateField cfg (key, e) =
            ([], Return (ValidatedEntryValid (defaultValue_read e)))).
  { unfold TrainingState.validateField. cbn [fst snd].
    by rewrite (get_absent _ _ Habs), validateEntry_undefined, Hreq. }
  split_and!.
  - assert (Hd : ∃ d, defaultValue e = Some d
              ∧ ((key = "challengeIndex" ∧ toValue d = VNumber (Number.ofZ 0))
                 ∨ (key = "maxAttempts" ∧ toValue d = VNumber (Number.ofZ 3)))).
    { pose proof (schema_cases _ Hin) as Hc.
      destruct Hc as [Hc | [Hc | [Hc | [Hc | Hc]]]]; simplify_eq; try discriminate Hreq;
        eexists; (split; [reflexivity |]); [left | right]; done. }
    destruct Hd as (d & Hd & Hkey). exists d.
    assert (Hread : defaultValue_read e = toValue d)
      by (unfold defaultValue_read; by rewrite Hd).
    rewrite Hread in Hstep. split_and!; [done | done | done |].
    intros obj Hobj.
    eapply validateConfig_valid_at; [exact Hin | by rewrite Hstep | exact Hobj].
  - apply (validateConfig_not_checkCalled _ _ _ Hin). by rewrite Hstep.
  - intros Hothers.
    assert (Hall : ∀ field, field ∈ schema →
              ∃ v, outcome (validateField cfg field) = Return (ValidatedEntryValid v)).
    { intros [k' e'] Hin'. destruct (String.eqb k' key) eqn:Ek.
      - apply String.eqb_eq in Ek as ->.
        rewrite (schema_functional _ _ _ Hin' Hin), Hstep. by eexists.
      - apply String.eqb_neq in Ek. by apply Hothers. }
    assert (Hc : completes cfg schema).
    { intros field Hf. destruct (Hall field Hf) as [v Hv]. by eexists. }
    rewrite (validateConfig_completes _ Hc). cbn [outcome snd].
    destruct (fieldErrors cfg schema) as [| msg errs] eqn:He; [by eexists |].
    apply fieldErrors_cons_inv in He as (field & Hf & Hmsg).
    destruct (Hall field Hf) as [v Hv]. congruence.
Qed.

(** C6, as amended.  For a declared key whose value in the raw mapping
    is not [undefined], is not of the declared type, and converts to
    the string <value>, the step of the key ends with exactly the error
    "Invalid type of <key>, expected a <type>, but got: <value>" and
    emits nothing, so the check of the key is called nowhere in the
    run; and when every declared key reads as a value that a template
    literal can convert, so that no step throws, [validateConfig]
    returns the error list that holds this error between the errors of
    the keys declared before and after. *)
Theorem C6_type_mismatch (key : string) (e : SchemaEntry) (cfg : gmap string value)
    (v : value) (shown : string) :
  (key, e) ∈ schema → cfg !! key = Some v →
  v ≠ VUndefined → typeof v ≠ typeName (type e) →
  outcome (ToString Number_toString v) = Return shown →
  validateField cfg (key, e) =
    ([], Return (ValidatedEntryInvalid
           ("Invalid type of " +:+ key +:+ ", expected a "
              +:+ typeName (type e) +:+ ", but got: " +:+ shown)))
  ∧ ¬ checkCalled key (trace (validateConfig cfg))
  ∧ ((∀ k, k ∈ declaredKeys → convertible Number_toString (get cfg k)) →
     ∃ before after,
       schema = before ++ (key, e) :: after
       ∧ outcome (validateConfig cfg) =
           Return (ValidatedTrainingStateInvalid
             (fieldErrors cfg before
                ++ ("Invalid type of " +:+ key +:+ ", expected a "
                      +:+ typeName (type e) +:+ ", but got: " +:+ shown)
                :: fieldErrors cfg after))).
Proof.
  intros Hin Hv Hu Ht Hs.
  assert (Hstep : validateField cfg (key, e) =
            ([], Return (ValidatedEntryInvalid (invalidTypeMessage key e shown)))).
  { unfold TrainingState.validateField. cbn [fst snd].
    by rewrite (get_present _ _ _ Hv), (validateEntry_mismatch _ _ _ Hu Ht),
      (ToString_returns _ _ Hs). }
  split_and!.
  - exact Hstep.
  - apply (validateConfig_not_checkCalled _ _ _ Hin). by rewrite Hstep.
  - intros Hconv. apply validateConfig_returns_iff in Hconv as [r Hr].
    destruct (validateConfig_error_at _ _ _ _ _ Hin ltac:(by rewrite Hstep) Hr)
      as (before & after & Hsplit & ->).
    by exists before, after.
Qed.

(** C7. The check of fragmentLength, on a binary64 number [n]: if
    [n >= 1] it accepts [Math.floor(n)], which is a binary64 number
    again and, when [n] has a real value, has the greatest integer not
    above that value as its value; if [n < 1] it rejects [n] with its
    message.  For a number with a real value the two comparisons are
    those of the real values.  The literal 2.9 is accepted as 2, and 0
    is rejected. *)
Theorem C7_fragmentLength_check (n : number) :
  Number.valid n = true →
  (Number.ge n (Number.ofZ 1) = true →
     check (fragmentLength Number_toString) n =
       ([], Return (ValidatedEntryValid (Number.floor n)))
     ∧ Number.valid (Number.floor n) = true
     ∧ ∀ q, Number.toQ n = Some q →
         ∃ q', Number.toQ (Number.floor n) = Some q' ∧ (q' == inject_Z (Qfloor q))%Q)
  ∧ (Number.lt n (Number.ofZ 1) = true →
       check (fragmentLength Number_toString) n =
         ([], Return (ValidatedEntryInvalid
                ("The fragment length must be positive, but was "
                   +:+ Number_toString n))))
  ∧ (∀ q, Number.toQ n = Some q →
       (Number.ge n (Number.ofZ 1) = true ↔ (1 <= q)%Q)
       ∧ (Number.lt n (Number.ofZ 1) = true ↔ (q < 1)%Q))
  ∧ check (fragmentLength Number_toString) Samples.n2_9 =
      ([], Return (ValidatedEntryValid (Number.ofZ 2)))
  ∧ check (fragmentLength Number_toString) (Number.ofZ 0) =
      ([], Return (ValidatedEntryInvalid
             ("The fragment length must be positive, but was "
                +:+ Number_toString (Number.ofZ 0)))).
Proof.
  intros Hv. split_and!.
  - intros Hge. cbn [check fragmentLength]. rewrite Hge. split_and!; [done | |].
    + destruct n as [s | s | | s m e]; try done.
      by destruct (NumberFacts.floor_toQ (S754_finite s m e) _ Hv eq_refl).
    + intros q Hq. by destruct (NumberFacts.floor_toQ n q Hv Hq).
  - intros Hlt. cbn [check fragmentLength]. by rewrite (NumberFacts.lt_not_ge _ _ Hlt).
  - intros q Hq. split; [by apply NumberFacts.ge_one_iff | by apply NumberFacts.lt_one_iff].
  - vm_compute. reflexivity.
  - reflexivity.
Qed.

(** C8 fails on the code.  On [{ winProbability: Symbol('p') }] the
    template literal of the type-mismatch branch converts the symbol to
    a string, which throws: [validateConfig] ends with a [TypeError]
    and returns no result. *)
Theorem C8_throws_on_symbol :
  validateConfig Samples.symbolConfig =
    ([], Throw (TypeError "Cannot convert a Symbol value to a string")).
Proof. vm_compute. reflexivity. Qed.

(** C9. Two raw mappings in which the five declared keys read as the
    same values are validated alike, events included: what else the
    mappings hold has no effect. *)
Theorem C9_undeclared_keys_ignored (cfg1 cfg2 : gmap string value) :
  (∀ key, key ∈ declaredKeys → get cfg1 key = get cfg2 key) →
  validateConfig cfg1 = validateConfig cfg2.
Proof. apply validateConfig_ext. Qed.

(** C10. A declared key that is present with the value [undefined] is
    validated as an absent one: the two runs are equal.  If the key is
    required, the step of the key ends in both with the error
    "Missing required setting '<key>' of type <type> (<description>)".
    If it is not required, the entry carries a [defaultValue] and the
    step accepts it in both as it stands: 0 for challengeIndex, 3 for
    maxAttempts; a configuration object that either run returns holds
    it under the key.  The step emits nothing, so the check of the key
    is called nowhere in either run. *)
Theorem C10_undefined_as_absent (key : string) (e : SchemaEntry)
    (cfg : gmap string value) :
  (key, e) ∈ schema →
  validateConfig (<[key := VUndefined]> cfg) = validateConfig (delete key cfg)
  ∧ (isRequired e = true →
     validateField (<[key := VUndefined]> cfg) (key, e) =
       ([], Return (ValidatedEntryInvalid
              ("Missing required setting '" +:+ key +:+ "' of type "
                 +:+ typeName (type e) +:+ " (" +:+ description e +:+ ")")))
     ∧ validateField (delete key cfg) (key, e) =
         ([], Return (ValidatedEntryInvalid
                ("Missing required setting '" +:+ key +:+ "' of type "
                   +:+ typeName (type e) +:+ " (" +:+ description e +:+ ")"))))
  ∧ (isRequired e = false →
     ∃ d, defaultValue e = Some d
          ∧ ((key = "challengeIndex" ∧ toValue d = VNumber (Number.ofZ 0))
             ∨ (key = "maxAttempts" ∧ toValue d = VNumber (Number.ofZ 3)))
          ∧ validateField (<[key := VUndefined]> cfg) (key, e) =
              ([], Return (ValidatedEntryValid (toValue d)))
          ∧ validateField (delete key cfg) (key, e) =
              ([], Return (ValidatedEntryValid (toValue d)))
          ∧ (∀ obj,
               outcome (validateConfig (<[key := VUndefined]> cfg)) =
                 Return (ValidatedTrainingStateValid obj) →
               obj !! key = Some (toValue d))
          ∧ (∀ obj,
               outcome (validateConfig (delete key cfg)) =
                 Return (ValidatedTrainingStateValid obj) →
               obj !! key = Some (toValue d)))
  ∧ ¬ checkCalled key (trace (validateConfig (<[key := VUndefined]> cfg)))
  ∧ ¬ checkCalled key (trace (validateConfig (delete key cfg))).
Proof.
  intros Hin.
  assert (Hp : get (<[key := VUndefined]> cfg) key = VUndefined)
    by (unfold get; by rewrite lookup_insert_eq).
  assert (Ha : get (delete key cfg) key = VUndefined)
    by (unfold get; by rewrite lookup_delete_eq).
  assert (Hstep : ∀ cfg', get cfg' key = VUndefined →
            validateField cfg' (key, e) =
              ([], Return (if isRequired e
                           then ValidatedEntryInvalid (missingMessage key e)
                           else ValidatedEntryValid (defaultValue_read e)))).
  { intros cfg' Hu. unfold TrainingState.validateField. cbn [fst snd].
    by rewrite Hu, validateEntry_undefined. }
  pose proof (Hstep _ Hp) as Hsp. pose proof (Hstep _ Ha) as Hsa.
  split_and!.
  - apply validateConfig_ext. intros k _. unfold get.
    destruct (String.eqb k key) eqn:Ek.
    + apply String.eqb_eq in Ek as ->. by rewrite lookup_insert_eq, lookup_delete_eq.
    + apply String.eqb_neq in Ek.
      by rewrite lookup_insert_ne, lookup_delete_ne.
  - intros Hreq. rewrite Hreq in Hsp, Hsa. by split.
  - intros Hreq. rewrite Hreq in Hsp, Hsa.
    assert (Hd : ∃ d, defaultValue e = Some d
              ∧ ((key = "challengeIndex" ∧ toValue d = VNumber (Number.ofZ 0))
                 ∨ (key = "maxAttempts" ∧ toValue d = VNumber (Number.ofZ 3)))).
    { pose proof (schema_cases _ Hin) as Hc.
      destruct Hc as [Hc | [Hc | [Hc | [Hc | Hc]]]]; simplify_eq; try discriminate Hreq;
        eexists; (split; [reflexivity |]); [left | right]; done. }
    destruct Hd as (d & Hd & Hkey). exists d.
    assert (Hread : defaultValue_read e = toValue d)
      by (unfold defaultValue_read; by rewrite Hd).
    rewrite Hread in Hsp, Hsa. split_and!; [done | done | done | done | |].
    + intros obj Hobj.
      eapply validateConfig_valid_at; [exact Hin | by rewrite Hsp | exact Hobj].
    + intros obj Hobj.
      eapply validateConfig_valid_at; [exact Hin | by rewrite Hsa | exact Hobj].
  - apply (validateConfig_not_checkCalled _ _ _ Hin). rewrite Hsp. by destruct (isRequired e).
  - apply (validateConfig_not_checkCalled _ _ _ Hin). rewrite Hsa. by destruct (isRequired e).
Qed.

End ValidatorFacts.

(** ** The claims at sample inputs *)

Section Witnesses.

Local Abbreviation host_existsSync := Samples.existsSync.
Local Abbreviation host_toString := Samples.Number_toString.
Local Abbreviation schema := (trainingStateSchema host_existsSync host_toString).
Local Abbreviation validateConfig := (TrainingState.validateConfig host_existsSync host_toString).
Local Abbreviation validateField := (TrainingState.validateField host_toString).
Local Abbreviation fieldErrors := (TrainingState.fieldErrors host_toString).

Local Ltac in_schema :=
  unfold trainingStateSchema;
  repeat first [apply list_elem_of_here | apply list_elem_of_further].

(** The two scenarios of the specification, run on the sample host. *)
Example validateConfig_mainConfig :
  validateConfig Samples.mainConfig =
    ([CheckCalled "winProbability" (VNumber (Number.ofDyadic 1 (-1)));
      CheckCalled "fragmentLength" (VNumber (Number.ofZ 80));
      CheckCalled "challengeFile" (VString "./example_text.txt");
      ExistsSyncCalled "./example_text.txt"],
     Return (ValidatedTrainingStateValid Samples.mainResult)).
Proof. vm_compute. reflexivity. Qed.

Example validateConfig_badConfig :
  validateConfig Samples.badConfig =
    ([CheckCalled "winProbability" (VNumber (Number.ofDyadic 3 (-1)));
      CheckCalled "fragmentLength" (VNumber (Number.ofZ (-3)));
      CheckCalled "challengeFile" (VString "./missing.txt");
      ExistsSyncCalled "./missing.txt"],
     Return (ValidatedTrainingStateInvalid
       ["The probability must be strictly between 0 and 1, but was <number>";
        "The fragment length must be positive, but was <number>";
        "Couldn't find the file " +:+ quote +:+ "./missing.txt" +:+ quote +:+ "."])).
Proof. vm_compute. reflexivity. Qed.

(** The checks at the edges of the numbers. *)
Example n2_9_nearest :
  ∃ q, Number.toQ Samples.n2_9 = Some q
       ∧ (Qabs (q - (29 # 10)) <= 1 # 4503599627370496)%Q.
Proof.
  eexists. split; [vm_compute; reflexivity |].
  apply Qle_bool_iff. vm_compute. reflexivity.
Qed.

Example fragmentLength_step_2_9 :
  validateEntry host_toString "fragmentLength" (fragmentLength host_toString)
    (VNumber Samples.n2_9) =
    ([CheckCalled "fragmentLength" (VNumber Samples.n2_9)],
     Return (ValidatedEntryValid (VNumber (Number.ofZ 2)))).
Proof. vm_compute. reflexivity. Qed.

Example fragmentLength_check_Infinity :
  check (fragmentLength host_toString) Number.Infinity =
    ([], Return (ValidatedEntryValid Number.Infinity)).
Proof. reflexivity. Qed.

Example fragmentLength_check_NaN :
  Number.ge Number.NaN (Number.ofZ 1) = false
  ∧ Number.lt Number.NaN (Number.ofZ 1) = false
  ∧ check (fragmentLength host_toString) Number.NaN =
      ([], Return (ValidatedEntryInvalid
             "The fragment length must be positive, but was NaN")).
Proof. split_and!; reflexivity. Qed.

Example winProbability_check_boundaries :
  check (winProbability host_toString) (Number.ofZ 0) =
    ([], Return (ValidatedEntryInvalid
           "The probability must be strictly between 0 and 1, but was 0"))
  ∧ check (winProbability host_toString) (Number.ofZ 1) =
      ([], Return (ValidatedEntryInvalid
             "The probability must be strictly between 0 and 1, but was 1"))
  ∧ check (winProbability host_toString) (Number.ofDyadic 1 (-1)) =
      ([], Return (ValidatedEntryValid (Number.ofDyadic 1 (-1)))).
Proof. split_and!; vm_compute; reflexivity. Qed.

(** An object without a string conversion ends the run like a symbol. *)
Example validateConfig_objectConfig :
  validateConfig Samples.objectConfig =
    ([], Throw (TypeError "Cannot convert object to primitive value")).
Proof. vm_compute. reflexivity. Qed.

(** Under fragmentLength such an object ends the run where the symbol
    of [symbolLengthConfig] does: after the check of winProbability. *)
Example validateConfig_objectLength :
  validateConfig (<["fragmentLength" := VObject false None]> Samples.symbolLengthConfig) =
    ([CheckCalled "winProbability" (VNumber (Number.ofDyadic 3 (-1)))],
     Throw (TypeError "Cannot convert object to primitive value")).
Proof. vm_compute. reflexivity. Qed.


Lemma C3_witness :
  ("maxAttempts", maxAttempts host_toString) ∈ schema
  ∧ (isRequired (maxAttempts host_toString) = false →
       ∃ d, defaultValue (maxAttempts host_toString) = Some d
            ∧ typeof (toValue d) = typeName (type (maxAttempts host_toString)))
  ∧ (isRequired (maxAttempts host_toString) = true →
       (defaultValue (maxAttempts host_toString) = None ↔ "maxAttempts" = "challengeFile")
       ∧ ∀ key v,
           validateEntry host_toString key (maxAttempts host_toString) v
           = validateEntry host_toString key (withoutDefault (maxAttempts host_toString)) v).
Proof.
  assert (H : ("maxAttempts", maxAttempts host_toString) ∈ schema) by in_schema.
  split; [exact H |].
  exact (C3_defaults host_existsSync host_toString _ H).
Defined.

Lemma C4_witness :
  ("challengeFile", challengeFile host_existsSync) ∈ schema
  ∧ isRequired (challengeFile host_existsSync) = true
  ∧ (∅ : gmap string value) !! "challengeFile" = None
  ∧ validateField ∅ ("challengeFile", challengeFile host_existsSync) =
      ([], Return (ValidatedEntryInvalid
             "Missing required setting 'challengeFile' of type string (Path to the file containing the textual data.)"))
  ∧ ¬ checkCalled "challengeFile" (trace (validateConfig ∅))
  ∧ ∃ before after,
      schema = before ++ ("challengeFile", challengeFile host_existsSync) :: after
      ∧ outcome (validateConfig ∅) =
          Return (ValidatedTrainingStateInvalid
            (fieldErrors ∅ before
               ++ "Missing required setting 'challengeFile' of type string (Path to the file containing the textual data.)"
               :: fieldErrors ∅ after)).
Proof.
  assert (H1 : ("challengeFile", challengeFile host_existsSync) ∈ schema) by in_schema.
  assert (H2 : isRequired (challengeFile host_existsSync) = true) by reflexivity.
  assert (H3 : (∅ : gmap string value) !! "challengeFile" = None) by reflexivity.
  assert (H4 : ∀ k, k ∈ declaredKeys → convertible host_toString (get ∅ k))
    by (intros k _; by exists "undefined").
  destruct (C4_missing_required host_existsSync host_toString _ _ _ H1 H2 H3)
    as (Hstep & Hcalled & Hresult).
  split_and!; [exact H1 | exact H2 | exact H3 | exact Hstep | exact Hcalled
               | exact (Hresult H4)].
Defined.

Lemma C5_witness :
  ("challengeIndex", challengeIndex host_toString) ∈ schema
  ∧ isRequired (challengeIndex host_toString) = false
  ∧ Samples.mainConfig !! "challengeIndex" = None
  ∧ ¬ checkCalled "challengeIndex" (trace (validateConfig Samples.mainConfig))
  ∧ (∃ d, defaultValue (challengeIndex host_toString) = Some d
          ∧ validateField Samples.mainConfig ("challengeIndex", challengeIndex host_toString)
            = ([], Return (ValidatedEntryValid (toValue d)))
          ∧ ∀ obj,
              outcome (validateConfig Samples.mainConfig)
              = Return (ValidatedTrainingStateValid obj) →
              obj !! "challengeIndex" = Some (toValue d))
  ∧ ∃ obj, outcome (validateConfig Samples.mainConfig)
           = Return (ValidatedTrainingStateValid obj).
Proof.
  assert (H1 : ("challengeIndex", challengeIndex host_toString) ∈ schema) by in_schema.
  assert (H2 : isRequired (challengeIndex host_toString) = false) by reflexivity.
  assert (H3 : Samples.mainConfig !! "challengeIndex" = None) by (vm_compute; reflexivity).
  assert (H4 : ∀ field, field ∈ schema → field.1 ≠ "challengeIndex" →
            ∃ v, outcome (validateField Samples.mainConfig field)
                 = Return (ValidatedEntryValid v)).
  { intros field Hf _. apply schema_cases in Hf.
    destruct Hf as [-> | [-> | [-> | [-> | ->]]]]; eexists; vm_compute; reflexivity. }
  destruct (C5_default_value host_existsSync host_toString _ _ _ H1 H2 H3)
    as ((d & Hd & Hstep & _ & Hobj) & Hcalled & Hresult).
  split_and!; [exact H1 | exact H2 | exact H3 | exact Hcalled | | exact (Hresult H4)].
  exists d. split_and!; [exact Hd | exact Hstep | exact Hobj].
Defined.

Lemma C6_witness :
  ("fragmentLength", fragmentLength host_toString) ∈ schema
  ∧ Samples.stringLengthConfig !! "fragmentLength" = Some (VString "80")
  ∧ VString "80" ≠ VUndefined
  ∧ typeof (VString "80") ≠ typeName (type (fragmentLength host_toString))
  ∧ outcome (ToString host_toString (VString "80")) = Return "80"
  ∧ validateField Samples.stringLengthConfig ("fragmentLength", fragmentLength host_toString) =
      ([], Return (ValidatedEntryInvalid
             "Invalid type of fragmentLength, expected a number, but got: 80"))
  ∧ ¬ checkCalled "fragmentLength" (trace (validateConfig Samples.stringLengthConfig))
  ∧ ∃ before after,
      schema = before ++ ("fragmentLength", fragmentLength host_toString) :: after
      ∧ outcome (validateConfig Samples.stringLengthConfig) =
          Return (ValidatedTrainingStateInvalid
            (fieldErrors Samples.stringLengthConfig before
               ++ "Invalid type of fragmentLength, expected a number, but got: 80"
               :: fieldErrors Samples.stringLengthConfig after)).
Proof.
  assert (H1 : ("fragmentLength", fragmentLength host_toString) ∈ schema) by in_schema.
  assert (H2 : Samples.stringLengthConfig !! "fragmentLength" = Some (VString "80"))
    by (vm_compute; reflexivity).
  assert (H3 : VString "80" ≠ VUndefined) by discriminate.
  assert (H4 : typeof (VString "80") ≠ typeName (type (fragmentLength host_toString)))
    by discriminate.
  assert (H5 : outcome (ToString host_toString (VString "80")) = Return "80") by reflexivity.
  assert (H6 : ∀ k, k ∈ declaredKeys →
            convertible host_toString (get Samples.stringLengthConfig k)).
  { intros k Hk. unfold declaredKeys in Hk.
    repeat (apply elem_of_cons in Hk as [-> | Hk]; [eexists; vm_compute; reflexivity |]).
    by apply elem_of_nil in Hk. }
  destruct (C6_type_mismatch host_existsSync host_toString _ _ _ _ _ H1 H2 H3 H4 H5)
    as (Hstep & Hcalled & Hresult).
  split_and!; [exact H1 | exact H2 | exact H3 | exact H4 | exact H5 | exact Hstep
               | exact Hcalled | exact (Hresult H6)].
Defined.

Lemma C7_witness :
  Number.valid Samples.n2_9 = true
  ∧ Number.ge Samples.n2_9 (Number.ofZ 1) = true
  ∧ check (fragmentLength host_toString) Samples.n2_9 =
      ([], Return (ValidatedEntryValid (Number.floor Samples.n2_9)))
  ∧ Number.floor Samples.n2_9 = Number.ofZ 2.
Proof.
  assert (H : Number.valid Samples.n2_9 = true) by (vm_compute; reflexivity).
  assert (Hge : Number.ge Samples.n2_9 (Number.ofZ 1) = true) by (vm_compute; reflexivity).
  destruct (C7_fragmentLength_check host_toString Samples.n2_9 H) as (Hacc & _).
  destruct (Hacc Hge) as (Hcheck & _).
  split_and!; [exact H | exact Hge | exact Hcheck | vm_compute; reflexivity].
Defined.

Lemma C9_witness :
  (∀ key, key ∈ declaredKeys →
     get Samples.mainConfig key = get Samples.extendedConfig key)
  ∧ validateConfig Samples.mainConfig = validateConfig Samples.extendedConfig.
Proof.
  assert (H : ∀ key, key ∈ declaredKeys →
            get Samples.mainConfig key = get Samples.extendedConfig key).
  { intros key Hkey. unfold declaredKeys in Hkey.
    repeat (apply elem_of_cons in Hkey as [-> | Hkey]; [vm_compute; reflexivity |]).
    by apply elem_of_nil in Hkey. }
  split; [exact H |].
  exact (C9_undeclared_keys_ignored host_existsSync host_toString _ _ H).
Defined.

Lemma C10_witness :
  (("challengeIndex", challengeIndex host_toString) ∈ schema
   ∧ validateConfig (<["challengeIndex" := VUndefined]> Samples.mainConfig)
     = validateConfig (delete "challengeIndex" Samples.mainConfig)
   ∧ validateConfig (<["challengeIndex" := VUndefined]> Samples.mainConfig)
     = ([CheckCalled "winProbability" (VNumber (Number.ofDyadic 1 (-1)));
         CheckCalled "fragmentLength" (VNumber (Number.ofZ 80));
         CheckCalled "challengeFile" (VString "./example_text.txt");
         ExistsSyncCalled "./example_text.txt"],
        Return (ValidatedTrainingStateValid Samples.mainResult))
   ∧ (∃ d, defaultValue (challengeIndex host_toString) = Some d
           ∧ toValue d = VNumber (Number.ofZ 0)
           ∧ validateField (<["challengeIndex" := VUndefined]> Samples.mainConfig)
               ("challengeIndex", challengeIndex host_toString) =
               ([], Return (ValidatedEntryValid (toValue d)))
           ∧ validateField (delete "challengeIndex" Samples.mainConfig)
               ("challengeIndex", challengeIndex host_toString) =
               ([], Return (ValidatedEntryValid (toValue d))))
   ∧ ¬ checkCalled "challengeIndex"
         (trace (validateConfig (<["challengeIndex" := VUndefined]> Samples.mainConfig))))
  ∧ (("winProbability", winProbability host_toString) ∈ schema
     ∧ validateConfig (<["winProbability" := VUndefined]> Samples.mainConfig)
       = validateConfig (delete "winProbability" Samples.mainConfig)
     ∧ validateField (<["winProbability" := VUndefined]> Samples.mainConfig)
         ("winProbability", winProbability host_toString) =
         ([], Return (ValidatedEntryInvalid
                "Missing required setting 'winProbability' of type number (Probability of winning on each challenge that the program should aim for.)"))
     ∧ ¬ checkCalled "winProbability"
           (trace (validateConfig (<["winProbability" := VUndefined]> Samples.mainConfig)))).
Proof.
  assert (Hi : ("challengeIndex", challengeIndex host_toString) ∈ schema) by in_schema.
  assert (Hw : ("winProbability", winProbability host_toString) ∈ schema) by in_schema.
  destruct (C10_undefined_as_absent host_existsSync host_toString _ _ Samples.mainConfig Hi)
    as (Hieq & _ & Hidef & Hicalled & _).
  destruct (Hidef eq_refl) as (d & Hd & Hkey & Hip & Hia & _).
  destruct (C10_undefined_as_absent host_existsSync host_toString _ _ Samples.mainConfig Hw)
    as (Hweq & Hwreq & _ & Hwcalled & _).
  destruct (Hwreq eq_refl) as [Hwp _].
  split; split_and!;
    [exact Hi | exact Hieq | vm_compute; reflexivity | | exact Hicalled
     | exact Hw | exact Hweq | exact Hwp | exact Hwcalled].
  exists d. destruct Hkey as [[_ Hz] | [Hk _]]; [| discriminate Hk].
  split_and!; [exact Hd | exact Hz | exact Hip | exact Hia].
Defined.

(** C3 fails as it is stated: winProbability is required and carries
    the [defaultValue] 0.75 (and fragmentLength, required, carries 40). *)
Lemma C3_counterexample :
  (("winProbability", winProbability host_toString) ∈ schema
   ∧ isRequired (winProbability host_toString) = true
   ∧ defaultValue (winProbability host_toString) = Some (Number.ofDyadic 3 (-2))
   ∧ ("fragmentLength", fragmentLength host_toString) ∈ schema
   ∧ isRequired (fragmentLength host_toString) = true
   ∧ defaultValue (fragmentLength host_toString) = Some (Number.ofZ 40))
  ∧ ¬ ∀ field : string * SchemaEntry,
        field ∈ schema → isRequired field.2 = true → defaultValue field.2 = None.
Proof.
  split; [split_and!; try reflexivity; in_schema |].
  intros H. specialize (H ("winProbability", winProbability host_toString)).
  discriminate H; [in_schema | reflexivity].
Qed.

(** C6 fails as it is stated: in [{ winProbability: undefined }] the
    key is present and the type of its value, ['undefined'], is not the
    declared ['number'], yet the error is the one of a missing setting. *)
Lemma C6_counterexample :
  ("winProbability", winProbability host_toString) ∈ schema
  ∧ Samples.undefinedConfig !! "winProbability" = Some VUndefined
  ∧ typeof VUndefined ≠ typeName (type (winProbability host_toString))
  ∧ validateField Samples.undefinedConfig ("winProbability", winProbability host_toString) =
      ([], Return (ValidatedEntryInvalid
             "Missing required setting 'winProbability' of type number (Probability of winning on each challenge that the program should aim for.)"))
  ∧ validateConfig Samples.undefinedConfig =
      ([], Return (ValidatedTrainingStateInvalid
        ["Missing required setting 'winProbability' of type number (Probability of winning on each challenge that the program should aim for.)";
         "Missing required setting 'fragmentLength' of type number (Maximum length of the text fragment in each round.)";
         "Missing required setting 'challengeFile' of type string (Path to the file containing the textual data.)"]))
  ∧ ∀ shown,
      invalidTypeMessage "winProbability" (winProbability host_toString) shown
      ∉ errorsOf (ValidatedTrainingStateInvalid
        ["Missing required setting 'winProbability' of type number (Probability of winning on each challenge that the program should aim for.)";
         "Missing required setting 'fragmentLength' of type number (Maximum length of the text fragment in each round.)";
         "Missing required setting 'challengeFile' of type string (Path to the file containing the textual data.)"]).
Proof.
  split_and!; [in_schema | vm_compute; reflexivity | discriminate
               | vm_compute; reflexivity | vm_compute; reflexivity |].
  intros shown H. cbn [errorsOf] in H.
  repeat (apply elem_of_cons in H as [H | H]; [discriminate H |]).
  by apply elem_of_nil in H.
Qed.

End Witnesses.

(** ** More facts about binary64 numbers *)

Module RangeFacts.
Import Number NumberFacts Range.

Lemma toQ_sign (s : bool) (m : positive) (e : Z) (q : Q) :
  toQ (S754_finite s m e) = Some q →
  if s then (q < 0)%Q else (0 < q)%Q.
Proof.
  unfold toQ. intros [= <-].
  assert (Hp : ∀ k, 0 <= k → 0 < 2 ^ k) by (intros; apply Z.pow_pos_nonneg; lia).
  destruct (Z.leb_spec 0 e); destruct s; unfold Qlt, cond_Zopp; cbn [Qnum Qden inject_Z].
  - assert (Z.neg m * 2 ^ e < 0) by (apply Z.mul_neg_pos; [lia | by apply Hp]). lia.
  - assert (0 < Zpos m * 2 ^ e) by (apply Z.mul_pos_pos; [lia | by apply Hp]). lia.
  - lia.
  - lia.
Qed.

(** [n > 0] holds of [+Infinity] and of the numbers with a positive real
    value. *)
Lemma gt_zero_iff (x : number) :
  gt x (ofZ 0) = true ↔ x = Infinity ∨ ∃ q, toQ x = Some q ∧ (0 < q)%Q.
Proof.
  destruct x as [s | s | | s m e].
  - split; [done |]. intros [H | (q & [= <-] & H)]; [done | by apply Qlt_irrefl in H].
  - destruct s; split; try done.
    + intros [H | (q & H & _)]; done.
    + by left.
  - split; [done |]. intros [H | (q & H & _)]; done.
  - pose proof (toQ_sign s m e) as Hs. destruct s; split; try done.
    + intros [H | (q & Hq & H)]; [done |]. specialize (Hs q Hq). simpl in Hs.
      exfalso. eapply Qlt_irrefl, Qlt_trans; eauto.
    + intros _. right. eexists. split; [done |]. by apply Hs.
Qed.

(** [n >= 0] holds of [+Infinity] and of the numbers with a real value
    that is not negative; [-0] is one of them. *)
Lemma ge_zero_iff (x : number) :
  ge x (ofZ 0) = true ↔ x = Infinity ∨ ∃ q, toQ x = Some q ∧ (0 <= q)%Q.
Proof.
  destruct x as [s | s | | s m e].
  - split; [| done]. intros _. right. exists 0%Q. split; [done | apply Qle_refl].
  - destruct s; split; try done.
    + intros [H | (q & H & _)]; done.
    + by left.
  - split; [done |]. intros [H | (q & H & _)]; done.
  - pose proof (toQ_sign s m e) as Hs. destruct s; split; try done.
    + intros [H | (q & Hq & H)]; [done |]. specialize (Hs q Hq). simpl in Hs.
      exfalso. eapply Qlt_irrefl, Qlt_le_trans; eauto.
    + intros _. right. eexists. split; [done |]. by apply Qlt_le_weak, Hs.
Qed.

(** [n >= 1] holds of [+Infinity] and of the numbers with a real value
    of at least 1. *)
Lemma ge_one_cases (x : number) :
  valid x = true →
  ge x (ofZ 1) = true ↔ x = Infinity ∨ ∃ q, toQ x = Some q ∧ (1 <= q)%Q.
Proof.
  intros Hv. destruct (toQ x) as [q |] eqn:Hq.
  - rewrite (ge_one_iff x q Hv Hq). split.
    + intros H. right. by exists q.
    + intros [-> | (q' & [= <-] & H)]; done.
  - destruct x as [s | [] | | s m e]; try discriminate Hq.
    + split; [done |]. intros [H | (q & H & _)]; done.
    + split; [by left | done].
    + split; [done |]. intros [H | (q & H & _)]; done.
Qed.

(** [n < 1] holds of no number without a real value but [-Infinity]. *)
Lemma lt_one_finite (x : number) (q : Q) :
  valid x = true → toQ x = Some q → (q < 1)%Q → lt x (ofZ 1) = true.
Proof. intros Hv Hq H. by apply (lt_one_iff x q Hv Hq). Qed.

(** A floor of a binary64 number is one. *)
Lemma floor_valid (n : number) : valid n = true → valid (floor n) = true.
Proof.
  intros Hv. destruct (toQ n) as [q |] eqn:Hq.
  - by destruct (floor_toQ n q Hv Hq).
  - by destruct n.
Qed.

(** Only [+Infinity] is floored to [+Infinity]. *)
Lemma floor_Infinity (x : number) :
  valid x = true → floor x = Infinity → x = Infinity.
Proof.
  intros Hv H. destruct (toQ x) as [q |] eqn:Hq.
  - destruct (floor_toQ x q Hv Hq) as (_ & q' & Hq' & _). by rewrite H in Hq'.
  - by destruct x.
Qed.

(** Flooring twice is flooring once. *)
Lemma floor_idempotent (x : number) :
  valid x = true → floor (floor x) = floor x.
Proof.
  intros Hv. destruct x as [s | s | | s m e]; try done.
  remember (floor (S754_finite s m e)) as r eqn:Hr. unfold floor in Hr.
  destruct (Z.leb_spec 0 e) as [He | He].
  { subst r. unfold floor. destruct (Z.leb_spec 0 e); [done | lia]. }
  pose proof (valid_finite_lt _ _ _ Hv) as Hm.
  assert (Hpow : 2 <= 2 ^ (- e)).
  { change 2 with (2 ^ 1) at 1. apply Z.pow_le_mono_r; lia. }
  assert (Hz : - 2 ^ 52 <= cond_Zopp s (Zpos m) / 2 ^ (- e) <= 2 ^ 52).
  { destruct s; unfold cond_Zopp.
    - split; [apply Z.div_le_lower_bound; nia |].
      transitivity 0; [| lia]. apply Z.lt_le_incl, Z.div_lt_upper_bound; lia.
    - split; [transitivity 0; [lia | apply Z.div_pos; lia] |].
      apply Z.lt_le_incl, Z.div_lt_upper_bound; nia. }
  unfold binary_normalize in Hr.
  destruct (cond_Zopp s (Zpos m) / 2 ^ (- e)) as [| p | p]; [by subst r | |].
  - destruct (binary_round_integer false p) as (m' & e' & Hp & Hv' & He' & Hm'); [lia |].
    rewrite Hp in Hr. subst r. unfold floor. destruct (Z.leb_spec 0 e'); [done |].
    assert (Hpos : 0 < 2 ^ (- e')) by (apply Z.pow_pos_nonneg; lia).
    unfold cond_Zopp. rewrite Hm', Z.div_mul by lia. exact Hp.
  - destruct (binary_round_integer true p) as (m' & e' & Hp & Hv' & He' & Hm'); [lia |].
    rewrite Hp in Hr. subst r. unfold floor. destruct (Z.leb_spec 0 e'); [done |].
    assert (Hpos : 0 < 2 ^ (- e')) by (apply Z.pow_pos_nonneg; lia).
    unfold cond_Zopp. rewrite Hm'.
    replace (- (Zpos p * 2 ^ (- e'))) with (Zneg p * 2 ^ (- e')) by lia.
    rewrite Z.div_mul by lia. exact Hp.
Qed.

(** A floor of a number that is at least [k] is [+Infinity] or an integer
    of at least [k]. *)
Lemma floor_integerAtLeast (k : Z) (x : number) :
  valid x = true →
  (x = Infinity ∨ ∃ q, toQ x = Some q ∧ (inject_Z k <= q)%Q) →
  integerAtLeast k (floor x).
Proof.
  intros Hv [-> | (q & Hq & Hk)]; [by left |]. right.
  destruct (floor_toQ x q Hv Hq) as (_ & q' & Hq' & Heq).
  exists (Qfloor q), q'. split_and!; [| done | done].
  apply Qfloor_resp_le in Hk. by rewrite Qfloor_Z in Hk.
Qed.

(** An integer of at least 1 is at least 1, and of at least 0 at least 0,
    for the comparisons of the source. *)
Lemma integerAtLeast_ge_one (x : number) :
  valid x = true → integerAtLeast 1 x → ge x (ofZ 1) = true.
Proof.
  intros Hv H. apply (ge_one_cases x Hv).
  destruct H as [-> | (z & q & Hz & Hq & Heq)]; [by left |]. right.
  exists q. split; [done |]. rewrite Heq. unfold Qle. simpl. lia.
Qed.

Lemma integerAtLeast_ge_zero (x : number) :
  integerAtLeast 0 x → ge x (ofZ 0) = true.
Proof.
  intros H. apply ge_zero_iff.
  destruct H as [-> | (z & q & Hz & Hq & Heq)]; [by left |]. right.
  exists q. split; [done |]. rewrite Heq. unfold Qle. simpl. lia.
Qed.

End RangeFacts.

(** ** Further properties of the checks and of a run *)

Section Properties.

Import MFacts Number NumberFacts Range RangeFacts Trace.

Variable existsSync : string → bool.
Variable Number_toString : number → string.

Local Abbreviation validateEntry := (TrainingState.validateEntry Number_toString).
Local Abbreviation validateField := (TrainingState.validateField Number_toString).
Local Abbreviation loop := (validateConfig_loop Number_toString).
Local Abbreviation validateConfig := (TrainingState.validateConfig existsSync Number_toString).
Local Abbreviation schema := (trainingStateSchema existsSync Number_toString).
Local Abbreviation completes := (TrainingState.completes Number_toString).
Local Abbreviation fieldErrors := (TrainingState.fieldErrors Number_toString).
Local Abbreviation fieldValues := (TrainingState.fieldValues Number_toString).
Local Abbreviation fieldTraces := (TrainingState.fieldTraces Number_toString).

Local Ltac in_schema :=
  unfold trainingStateSchema;
  repeat first [apply list_elem_of_here | apply list_elem_of_further].

(** *** The checks of the numeric fields *)

Lemma winProbability_condition (n : number) :
  valid n = true →
  gt n (ofZ 0) && lt n (ofZ 1) = true ↔ strictlyBetween01 n.
Proof.
  intros Hv. rewrite andb_true_iff, gt_zero_iff. split.
  - intros [[-> | (q & Hq & H0)] H1]; [done |].
    exists q. split_and!; [done | done |]. by apply (lt_one_iff n q Hv Hq).
  - intros (q & Hq & H0 & H1). split; [right; by exists q |].
    by apply (lt_one_iff n q Hv Hq).
Qed.

(** X1. The check of winProbability, on a binary64 number [n]: it
    accepts [n], unchanged, if [n] has a real value strictly between 0
    and 1; it rejects every other number with its message, among them 0,
    [-0], 1, NaN and the infinities. *)
Theorem X1_winProbability_check (n : number) :
  valid n = true →
  (strictlyBetween01 n →
     check (winProbability Number_toString) n = ([], Return (ValidatedEntryValid n)))
  ∧ (¬ strictlyBetween01 n →
       check (winProbability Number_toString) n =
         ([], Return (ValidatedEntryInvalid
                ("The probability must be strictly between 0 and 1, but was "
                   +:+ Number_toString n)))).
Proof.
  intros Hv. pose proof (winProbability_condition n Hv) as Hc.
  cbn [check winProbability]. split; intros H.
  - apply Hc in H. by rewrite H.
  - destruct (gt n (ofZ 0) && lt n (ofZ 1)) eqn:E; [| done]. by destruct H; apply Hc.
Qed.

(** X2. The check of challengeIndex, on a binary64 number [n]: if [n]
    is [+Infinity] or has a real value that is not negative ([-0] has),
    it accepts [Math.floor(n)], which is [+Infinity] or an integer that
    is not negative; it rejects every other number, NaN and [-Infinity]
    among them, with its message. *)
Theorem X2_challengeIndex_check (n : number) :
  valid n = true →
  ((n = Infinity ∨ ∃ q, toQ n = Some q ∧ (0 <= q)%Q) →
     check (challengeIndex Number_toString) n =
       ([], Return (ValidatedEntryValid (floor n)))
     ∧ valid (floor n) = true
     ∧ integerAtLeast 0 (floor n))
  ∧ (¬ (n = Infinity ∨ ∃ q, toQ n = Some q ∧ (0 <= q)%Q) →
       check (challengeIndex Number_toString) n =
         ([], Return (ValidatedEntryInvalid
                ("The challenge index must be non-negative (0-based), but was "
                   +:+ Number_toString n)))).
Proof.
  intros Hv. pose proof (ge_zero_iff n) as Hc.
  cbn [check challengeIndex]. split; intros H.
  - pose proof H as H'. apply Hc in H'. rewrite H'.
    split_and!; [done | by apply floor_valid |].
    apply floor_integerAtLeast; [done |]. exact H.
  - destruct (ge n (ofZ 0)) eqn:E; [| done]. by destruct H; apply Hc.
Qed.

(** X3. The check of maxAttempts, on a binary64 number [n]: if [n] is
    [+Infinity] or has a real value of at least 1, it accepts
    [Math.floor(n)], which is [+Infinity] or an integer of at least 1;
    it rejects every other number, NaN among them, with its message. *)
Theorem X3_maxAttempts_check (n : number) :
  valid n = true →
  ((n = Infinity ∨ ∃ q, toQ n = Some q ∧ (1 <= q)%Q) →
     check (maxAttempts Number_toString) n =
       ([], Return (ValidatedEntryValid (floor n)))
     ∧ valid (floor n) = true
     ∧ integerAtLeast 1 (floor n))
  ∧ (¬ (n = Infinity ∨ ∃ q, toQ n = Some q ∧ (1 <= q)%Q) →
       check (maxAttempts Number_toString) n =
         ([], Return (ValidatedEntryInvalid
                ("Expected a positive integer number of attempts, but got "
                   +:+ Number_toString n +:+ ".")))).
Proof.
  intros Hv. pose proof (ge_one_cases n Hv) as Hc.
  cbn [check maxAttempts]. split; intros H.
  - pose proof H as H'. apply Hc in H'. rewrite H'.
    split_and!; [done | by apply floor_valid |].
    apply floor_integerAtLeast; [done |]. exact H.
  - destruct (ge n (ofZ 1)) eqn:E; [| done]. by destruct H; apply Hc.
Qed.

(** *** The events of a run *)

Lemma validateEntry_trace key e v :
  trace (validateEntry key e v) =
    match asPrimitive (type e) v with
    | Some x => CheckCalled key v :: trace (check e x)
    | None => []
    end.
Proof.
  destruct (asPrimitive (type e) v) as [x |] eqn:E.
  - rewrite (validateEntry_typed _ _ _ _ _ E), trace_bind. simpl.
    rewrite trace_bind. destruct (outcome (check e x)); simpl; by rewrite app_nil_r.
  - destruct (String.eqb (typeof v) "undefined") eqn:Hu.
    + apply typeof_undefined in Hu as ->. by rewrite validateEntry_undefined.
    + assert (v ≠ VUndefined) by (intros ->; done).
      apply asPrimitive_None in E. rewrite (validateEntry_mismatch _ _ _ _ ltac:(done) E).
      rewrite trace_bind, ToString_trace.
      by destruct (outcome (ToString Number_toString v)).
Qed.

Lemma number_field_trace key e v :
  type e = TNumber → (∀ x, trace (check e x) = []) →
  trace (validateEntry key e v) `sublist_of` [CheckCalled key v].
Proof.
  intros Ht Hc. rewrite validateEntry_trace.
  destruct (asPrimitive (type e) v) as [x |]; [rewrite Hc; done | apply sublist_nil_l].
Qed.

Lemma challengeFile_trace v :
  trace (validateEntry "challengeFile" (challengeFile existsSync) v) =
    match v with
    | VString path => [CheckCalled "challengeFile" v; ExistsSyncCalled path]
    | _ => []
    end.
Proof.
  rewrite validateEntry_trace. destruct v; try done.
  simpl. by destruct (existsSync s).
Qed.

(** The events of a run are among [allEvents], in that order. *)
Lemma fieldTraces_sublist cfg : fieldTraces cfg schema `sublist_of` allEvents cfg.
Proof.
  unfold TrainingState.fieldTraces, trainingStateSchema, allEvents.
  cbn [List.map concat]. unfold TrainingState.validateField. cbn [fst snd].
  change ([CheckCalled "winProbability" (get cfg "winProbability");
           CheckCalled "fragmentLength" (get cfg "fragmentLength");
           CheckCalled "challengeIndex" (get cfg "challengeIndex");
           CheckCalled "challengeFile" (get cfg "challengeFile")]
          ++ match get cfg "challengeFile" with
             | VString path => [ExistsSyncCalled path]
             | _ => []
             end ++ [CheckCalled "maxAttempts" (get cfg "maxAttempts")])
    with ([CheckCalled "winProbability" (get cfg "winProbability")]
          ++ [CheckCalled "fragmentLength" (get cfg "fragmentLength")]
          ++ [CheckCalled "challengeIndex" (get cfg "challengeIndex")]
          ++ (CheckCalled "challengeFile" (get cfg "challengeFile")
              :: match get cfg "challengeFile" with
                 | VString path => [ExistsSyncCalled path]
                 | _ => []
                 end)
          ++ [CheckCalled "maxAttempts" (get cfg "maxAttempts")] ++ []).
  repeat apply sublist_app; try done.
  - apply number_field_trace; [done |]. intros x. simpl. by destruct (_ && _).
  - apply number_field_trace; [done |]. intros x. simpl. by destruct (Number.ge _ _).
  - apply number_field_trace; [done |]. intros x. simpl. by destruct (Number.ge _ _).
  - rewrite challengeFile_trace. destruct (get cfg "challengeFile"); try done;
      apply sublist_nil_l.
  - apply number_field_trace; [done |]. intros x. simpl. by destruct (Number.ge _ _).
Qed.

Lemma loop_trace_prefix keys cfg errs res :
  trace (loop keys cfg errs res) `prefix_of` fieldTraces cfg keys.
Proof.
  revert errs res. induction keys as [| field keys IH]; intros errs res.
  - by exists [].
  - rewrite loop_cons, trace_bind. unfold TrainingState.fieldTraces. cbn [List.map concat].
    apply prefix_app.
    destruct (outcome (validateField cfg field)) as [[v | err] | e];
      [apply IH | apply IH | apply prefix_nil].
Qed.

Lemma validateConfig_trace_prefix cfg :
  trace (validateConfig cfg) `prefix_of` fieldTraces cfg schema.
Proof.
  rewrite validateConfig_unfold, trace_bind.
  assert (Hnil : match outcome (loop schema cfg [] ∅) with
                 | Return a =>
                     trace (let '(errors, result) := a in
                            if 0 <? Z.of_nat (length errors)
                            then ([], Return (ValidatedTrainingStateInvalid errors))
                            else ([], Return (ValidatedTrainingStateValid result)))
                 | Throw _ => []
                 end = []).
  { destruct (outcome (loop schema cfg [] ∅)) as [[errs res] | e]; [| done].
    by destruct (0 <? _). }
  rewrite Hnil, app_nil_r. apply loop_trace_prefix.
Qed.

Lemma validateConfig_trace_sublist cfg :
  trace (validateConfig cfg) `sublist_of` allEvents cfg.
Proof.
  etransitivity; [| apply fieldTraces_sublist].
  destruct (validateConfig_trace_prefix cfg) as [k ->]. by apply sublist_inserts_r.
Qed.

Lemma omap_sublist {A B} (f : A → option B) (l k : list A) :
  l `sublist_of` k → omap f l `sublist_of` omap f k.
Proof.
  induction 1 as [| x l k _ IH | x l k _ IH]; simpl.
  - constructor.
  - destruct (f x); [by constructor | done].
  - destruct (f x); [by constructor | done].
Qed.

Lemma fieldTraces_app cfg keys keys' :
  fieldTraces cfg (keys ++ keys') = fieldTraces cfg keys ++ fieldTraces cfg keys'.
Proof. unfold TrainingState.fieldTraces. by rewrite List.map_app, concat_app. Qed.

Lemma fieldTraces_elem cfg keys field ev :
  field ∈ keys → ev ∈ trace (validateField cfg field) → ev ∈ fieldTraces cfg keys.
Proof.
  intros Hin Hev. apply list_elem_of_split in Hin as (before & after & ->).
  rewrite fieldTraces_app. apply elem_of_app. right.
  unfold TrainingState.fieldTraces. cbn [List.map concat]. apply elem_of_app. by left.
Qed.

(** X4. A run touches the file system only through the check of
    challengeFile: it probes no path but the string read under
    challengeFile, and that one at most once; it probes nothing when the
    value read there is not a string.  When every step completes, the
    path is probed exactly once. *)
Theorem X4_file_system_probes (cfg : gmap string value) :
  probes (trace (validateConfig cfg)) `sublist_of`
    match get cfg "challengeFile" with
    | VString path => [path]
    | _ => []
    end
  ∧ (completes cfg schema →
     probes (trace (validateConfig cfg)) =
       match get cfg "challengeFile" with
       | VString path => [path]
       | _ => []
       end).
Proof.
  assert (Hall : probes (allEvents cfg) =
                 match get cfg "challengeFile" with
                 | VString path => [path]
                 | _ => []
                 end)
    by (unfold allEvents; by destruct (get cfg "challengeFile")).
  split.
  - rewrite <- Hall. apply omap_sublist, validateConfig_trace_sublist.
  - intros Hc. rewrite (validateConfig_completes _ _ _ Hc). cbn [trace fst].
    unfold TrainingState.fieldTraces, trainingStateSchema, TrainingState.validateField.
    cbn [List.map concat fst snd]. unfold probes. rewrite !omap_app.
    fold (probes (trace (validateEntry "challengeFile" (challengeFile existsSync)
                           (get cfg "challengeFile")))).
    rewrite challengeFile_trace.
    assert (Hnum : ∀ key e v, type e = TNumber → (∀ x, trace (check e x) = []) →
              omap (λ ev, match ev with ExistsSyncCalled path => Some path | _ => None end)
                (trace (validateEntry key e v)) = []).
    { intros key e v Ht Hx. rewrite validateEntry_trace.
      destruct (asPrimitive (type e) v); [by rewrite Hx | done]. }
    rewrite !Hnum; try done.
    + by destruct (get cfg "challengeFile").
    + intros x. simpl. by destruct (Number.ge _ _).
    + intros x. simpl. by destruct (Number.ge _ _).
    + intros x. simpl. by destruct (Number.ge _ _).
    + intros x. simpl. by destruct (_ && _).
Qed.

(** X5. A run calls the checks in declaration order and each of them at
    most once; a check is called on the value read under its key, and
    only if that value has the declared type.  When every step
    completes, the check of a key is called exactly if the value read
    under the key has the declared type. *)
Theorem X5_check_calls (cfg : gmap string value) :
  checkedKeys (trace (validateConfig cfg)) `sublist_of` declaredKeys
  ∧ (∀ key argument,
       CheckCalled key argument ∈ trace (validateConfig cfg) →
       argument = get cfg key
       ∧ ∃ e, (key, e) ∈ schema ∧ typeof argument = typeName (type e))
  ∧ (completes cfg schema →
     ∀ key e, (key, e) ∈ schema →
       checkCalled key (trace (validateConfig cfg))
       ↔ typeof (get cfg key) = typeName (type e)).
Proof.
  assert (Hcalls : ∀ key argument,
            CheckCalled key argument ∈ trace (validateConfig cfg) →
            argument = get cfg key
            ∧ ∃ e, (key, e) ∈ schema ∧ typeof argument = typeName (type e)).
  { intros key argument H.
    apply validateConfig_trace in H as ([k e] & Hin & H).
    apply validateEntry_checkCalled in H as (-> & -> & _ & Ht);
      [| by apply (schema_quiet _ _ _ Hin)].
    split; [done |]. by exists e. }
  split_and!.
  - assert (Hall : checkedKeys (allEvents cfg) = declaredKeys)
      by (unfold allEvents; by destruct (get cfg "challengeFile")).
    rewrite <- Hall. apply omap_sublist, validateConfig_trace_sublist.
  - exact Hcalls.
  - intros Hc key e Hin. split.
    + intros [argument H]. destruct (Hcalls _ _ H) as (-> & e' & Hin' & Ht).
      by rewrite (schema_functional _ _ _ _ _ Hin Hin').
    + intros Ht. exists (get cfg key).
      rewrite (validateConfig_completes _ _ _ Hc). cbn [trace fst].
      apply (fieldTraces_elem _ _ (key, e)); [done |].
      unfold TrainingState.validateField. cbn [fst snd]. rewrite validateEntry_trace.
      destruct (asPrimitive (type e) (get cfg key)) eqn:E; [left |].
      by apply asPrimitive_None in E.
Qed.

(** *** What a valid configuration holds *)

(** A step that accepts a value took the default of an entry that is not
    required, for [undefined], or the verdict of the check, for a value
    of the declared type. *)
Lemma validateEntry_valid_inv key e v r :
  outcome (validateEntry key e v) = Return (ValidatedEntryValid r) →
  (v = VUndefined ∧ isRequired e = false ∧ r = defaultValue_read e)
  ∨ ∃ x y, asPrimitive (type e) v = Some x
           ∧ outcome (check e x) = Return (ValidatedEntryValid y)
           ∧ r = toValue y.
Proof.
  intros H. destruct (String.eqb (typeof v) "undefined") eqn:Hu.
  { apply typeof_undefined in Hu as ->. rewrite validateEntry_undefined in H.
    left. destruct (isRequired e); simpl in H; by simplify_eq. }
  assert (Hv : v ≠ VUndefined) by (intros ->; done).
  destruct (asPrimitive (type e) v) as [x |] eqn:E.
  - right. rewrite (validateEntry_typed _ _ _ _ _ E), !outcome_bind in H. simpl in H.
    destruct (outcome (check e x)) as [[y | msg] | exn] eqn:Ec; simpl in H; simplify_eq.
    by exists x, y.
  - apply asPrimitive_None in E.
    rewrite (validateEntry_mismatch _ _ _ _ Hv E), outcome_bind in H.
    destruct (outcome (ToString Number_toString v)); simpl in H; simplify_eq.
Qed.

Lemma get_number (cfg : gmap string value) key n :
  wellFormed cfg → get cfg key = VNumber n → valid n = true.
Proof.
  intros Hw H. apply (Hw key). unfold get in H.
  destruct (cfg !! key) as [v |]; simpl in H; by simplify_eq.
Qed.

Lemma asPrimitive_number v x : asPrimitive TNumber v = Some x → v = VNumber x.
Proof. destruct v; simpl; intros H; by simplify_eq. Qed.

Lemma asPrimitive_string v x : asPrimitive TString v = Some x → v = VString x.
Proof. destruct v; simpl; intros H; by simplify_eq. Qed.

Lemma winProbability_accepted cfg r :
  wellFormed cfg →
  outcome (validateField cfg ("winProbability", winProbability Number_toString))
  = Return (ValidatedEntryValid r) →
  ∃ n, get cfg "winProbability" = VNumber n ∧ r = VNumber n
       ∧ valid n = true ∧ strictlyBetween01 n.
Proof.
  intros Hw H. apply validateEntry_valid_inv in H as [(_ & H & _) | (x & y & Hx & Hy & ->)];
    [done |].
  cbn [fst snd type winProbability] in *. apply asPrimitive_number in Hx.
  pose proof (get_number _ _ _ Hw Hx) as Hv.
  cbn [check winProbability] in Hy.
  destruct (gt x (ofZ 0) && lt x (ofZ 1)) eqn:E; simpl in Hy; simplify_eq.
  exists y. split_and!; [done | done | done |]. by apply winProbability_condition.
Qed.

Lemma floored_accepted (k : Z) (x : number) :
  valid x = true →
  (x = Infinity ∨ ∃ q, toQ x = Some q ∧ (inject_Z k <= q)%Q) →
  valid (floor x) = true ∧ integerAtLeast k (floor x) ∧ floor (floor x) = floor x.
Proof.
  intros Hv H. split_and!;
    [by apply floor_valid | by apply floor_integerAtLeast | by apply floor_idempotent].
Qed.

Lemma fragmentLength_accepted cfg r :
  wellFormed cfg →
  outcome (validateField cfg ("fragmentLength", fragmentLength Number_toString))
  = Return (ValidatedEntryValid r) →
  ∃ l, r = VNumber l ∧ valid l = true ∧ integerAtLeast 1 l ∧ floor l = l.
Proof.
  intros Hw H. apply validateEntry_valid_inv in H as [(_ & H & _) | (x & y & Hx & Hy & ->)];
    [done |].
  cbn [fst snd type fragmentLength] in *. apply asPrimitive_number in Hx.
  pose proof (get_number _ _ _ Hw Hx) as Hv.
  cbn [check fragmentLength] in Hy.
  destruct (ge x (ofZ 1)) eqn:E; simpl in Hy; simplify_eq.
  apply (ge_one_cases x Hv) in E. exists (floor x). split; [done |].
  by apply floored_accepted.
Qed.

Lemma challengeIndex_accepted cfg r :
  wellFormed cfg →
  outcome (validateField cfg ("challengeIndex", challengeIndex Number_toString))
  = Return (ValidatedEntryValid r) →
  ∃ i, r = VNumber i ∧ valid i = true ∧ integerAtLeast 0 i ∧ floor i = i.
Proof.
  intros Hw H. apply validateEntry_valid_inv in H as [(_ & _ & ->) | (x & y & Hx & Hy & ->)].
  { exists (ofZ 0). split_and!; try done. right. exists 0, 0%Q. by split_and!. }
  cbn [fst snd type challengeIndex] in *. apply asPrimitive_number in Hx.
  pose proof (get_number _ _ _ Hw Hx) as Hv.
  cbn [check challengeIndex] in Hy.
  destruct (ge x (ofZ 0)) eqn:E; simpl in Hy; simplify_eq.
  apply ge_zero_iff in E. exists (floor x). split; [done |].
  by apply floored_accepted.
Qed.

Lemma three_integerAtLeast : integerAtLeast 1 (ofZ 3).
Proof.
  right. exists 3. eexists. split_and!; [lia | vm_compute; reflexivity |].
  apply Qeq_bool_iff. vm_compute. reflexivity.
Qed.

Lemma maxAttempts_accepted cfg r :
  wellFormed cfg →
  outcome (validateField cfg ("maxAttempts", maxAttempts Number_toString))
  = Return (ValidatedEntryValid r) →
  ∃ a, r = VNumber a ∧ valid a = true ∧ integerAtLeast 1 a ∧ floor a = a.
Proof.
  intros Hw H. apply validateEntry_valid_inv in H as [(_ & _ & ->) | (x & y & Hx & Hy & ->)].
  { exists (ofZ 3). split_and!; [done | by vm_compute | apply three_integerAtLeast
                                 | by vm_compute]. }
  cbn [fst snd type maxAttempts] in *. apply asPrimitive_number in Hx.
  pose proof (get_number _ _ _ Hw Hx) as Hv.
  cbn [check maxAttempts] in Hy.
  destruct (ge x (ofZ 1)) eqn:E; simpl in Hy; simplify_eq.
  apply (ge_one_cases x Hv) in E. exists (floor x). split; [done |].
  by apply floored_accepted.
Qed.

Lemma challengeFile_accepted cfg r :
  outcome (validateField cfg ("challengeFile", challengeFile existsSync))
  = Return (ValidatedEntryValid r) →
  ∃ f, r = VString f ∧ get cfg "challengeFile" = VString f ∧ existsSync f = true.
Proof.
  intros H. apply validateEntry_valid_inv in H as [(_ & H & _) | (x & y & Hx & Hy & ->)];
    [done |].
  cbn [fst snd type challengeFile] in *. apply asPrimitive_string in Hx.
  cbn [check challengeFile] in Hy.
  destruct (existsSync x) eqn:E; simpl in Hy; simplify_eq.
  by exists y.
Qed.

(** A result that is a configuration object holds, under each declared
    key and under no other, the value that the step of the key accepted. *)
Lemma valid_result_fields cfg obj :
  outcome (validateConfig cfg) = Return (ValidatedTrainingStateValid obj) →
  dom obj = list_to_set declaredKeys
  ∧ ∀ field, field ∈ schema →
      ∃ v, outcome (validateField cfg field) = Return (ValidatedEntryValid v)
           ∧ obj !! field.1 = Some v.
Proof.
  intros Hr. pose proof (validateConfig_returns _ _ _ _ Hr) as Hc. pose proof Hr as Hr'.
  rewrite (validateConfig_completes _ _ _ Hc) in Hr'. cbn [outcome snd] in Hr'.
  destruct (fieldErrors cfg schema) as [| msg errs] eqn:He; [| done].
  assert (obj = fieldValues cfg schema ∅) as Hobj by congruence.
  assert (Hall : ∀ field, field ∈ schema →
            ∃ v, outcome (validateField cfg field) = Return (ValidatedEntryValid v))
    by (intros field Hin; by eapply fieldErrors_nil).
  split.
  - rewrite Hobj, (fieldValues_dom _ _ _ _ Hall), (schema_keys existsSync), dom_empty_L.
    by rewrite union_empty_l_L.
  - intros [key e] Hin. destruct (Hall _ Hin) as [v Hv]. exists v. split; [done |].
    by eapply validateConfig_valid_at.
Qed.

Lemma accepted_fields cfg obj :
  wellFormed cfg →
  outcome (validateConfig cfg) = Return (ValidatedTrainingStateValid obj) →
  ∃ p l i f a,
    (obj !! "winProbability" = Some (VNumber p)
     ∧ obj !! "fragmentLength" = Some (VNumber l)
     ∧ obj !! "challengeIndex" = Some (VNumber i)
     ∧ obj !! "challengeFile" = Some (VString f)
     ∧ obj !! "maxAttempts" = Some (VNumber a)
     ∧ dom obj = list_to_set declaredKeys)
    ∧ (valid p = true ∧ strictlyBetween01 p)
    ∧ (valid l = true ∧ integerAtLeast 1 l ∧ floor l = l)
    ∧ (valid i = true ∧ integerAtLeast 0 i ∧ floor i = i)
    ∧ existsSync f = true
    ∧ (valid a = true ∧ integerAtLeast 1 a ∧ floor a = a).
Proof.
  intros Hw Hr. destruct (valid_result_fields _ _ Hr) as [Hdom Hfields].
  destruct (Hfields ("winProbability", winProbability Number_toString))
    as (v1 & H1 & L1); [in_schema |].
  destruct (Hfields ("fragmentLength", fragmentLength Number_toString))
    as (v2 & H2 & L2); [in_schema |].
  destruct (Hfields ("challengeIndex", challengeIndex Number_toString))
    as (v3 & H3 & L3); [in_schema |].
  destruct (Hfields ("challengeFile", challengeFile existsSync))
    as (v4 & H4 & L4); [in_schema |].
  destruct (Hfields ("maxAttempts", maxAttempts Number_toString))
    as (v5 & H5 & L5); [in_schema |].
  apply (winProbability_accepted _ _ Hw) in H1 as (p & _ & -> & Hp).
  apply (fragmentLength_accepted _ _ Hw) in H2 as (l & -> & Hl).
  apply (challengeIndex_accepted _ _ Hw) in H3 as (i & -> & Hi).
  apply challengeFile_accepted in H4 as (f & -> & _ & Hf).
  apply (maxAttempts_accepted _ _ Hw) in H5 as (a & -> & Ha).
  cbn [fst] in *. exists p, l, i, f, a.
  split; [by split_and! |]. tauto.
Qed.

(** X6. A configuration object that [validateConfig] returns for a raw
    mapping of binary64 numbers holds exactly the five declared keys,
    with: a winProbability whose real value is strictly between 0 and 1;
    a fragmentLength and a maxAttempts that are [+Infinity] or integers
    of at least 1; a challengeIndex that is [+Infinity] or an integer
    that is not negative; a challengeFile for which the probe of the
    file system answered true.  All numbers are binary64 numbers, and
    [Math.floor] leaves the three floored ones unchanged. *)
Theorem X6_valid_configuration (cfg obj : gmap string value) :
  wellFormed cfg →
  outcome (validateConfig cfg) = Return (ValidatedTrainingStateValid obj) →
  ∃ p l i f a,
    (obj !! "winProbability" = Some (VNumber p)
     ∧ obj !! "fragmentLength" = Some (VNumber l)
     ∧ obj !! "challengeIndex" = Some (VNumber i)
     ∧ obj !! "challengeFile" = Some (VString f)
     ∧ obj !! "maxAttempts" = Some (VNumber a)
     ∧ dom obj = list_to_set declaredKeys)
    ∧ (valid p = true ∧ strictlyBetween01 p)
    ∧ (valid l = true ∧ integerAtLeast 1 l ∧ floor l = l)
    ∧ (valid i = true ∧ integerAtLeast 0 i ∧ floor i = i)
    ∧ existsSync f = true
    ∧ (valid a = true ∧ integerAtLeast 1 a ∧ floor a = a).
Proof. apply accepted_fields. Qed.

(** *** Validating again *)

Lemma validateEntry_typed_outcome key e v x c :
  asPrimitive (type e) v = Some x →
  outcome (check e x) = Return c →
  outcome (validateEntry key e v) = Return (eraseEntry c).
Proof.
  intros Hx Hc. rewrite (validateEntry_typed _ _ _ _ _ Hx), !outcome_bind. simpl.
  by rewrite Hc.
Qed.

(** The outcome of the loop is decided by the outcomes of the steps. *)
Lemma loop_outcome_ext keys cfg cfg' errs res :
  (∀ field, field ∈ keys →
     outcome (validateField cfg field) = outcome (validateField cfg' field)) →
  outcome (loop keys cfg errs res) = outcome (loop keys cfg' errs res).
Proof.
  revert errs res. induction keys as [| field keys IH]; intros errs res H; [done |].
  rewrite !loop_cons, !outcome_bind, <- (H field) by left.
  destruct (outcome (validateField cfg field)) as [[v | err] | e]; [| | done];
    apply IH; intros f Hf; apply H; by right.
Qed.

Lemma validateConfig_outcome_ext cfg cfg' :
  (∀ field, field ∈ schema →
     outcome (validateField cfg field) = outcome (validateField cfg' field)) →
  outcome (validateConfig cfg) = outcome (validateConfig cfg').
Proof.
  intros H. rewrite !validateConfig_unfold, !outcome_bind.
  by rewrite (loop_outcome_ext _ _ _ _ _ H).
Qed.

(** A mapping that holds, under the declared keys and no others, values
    that the steps accept as they are, is returned as it is. *)
Lemma validateConfig_fixed obj :
  dom obj = list_to_set declaredKeys →
  (∀ field, field ∈ schema →
     ∃ v, obj !! field.1 = Some v
          ∧ outcome (validateField obj field) = Return (ValidatedEntryValid v)) →
  outcome (validateConfig obj) = Return (ValidatedTrainingStateValid obj).
Proof.
  intros Hdom Hall.
  assert (Hc : completes obj schema).
  { intros field Hf. destruct (Hall field Hf) as (v & _ & Hv). by eexists. }
  rewrite (validateConfig_completes _ _ _ Hc). cbn [outcome snd].
  destruct (fieldErrors obj schema) as [| msg errs] eqn:He.
  - do 2 f_equal. apply map_eq. intros key.
    destruct (decide (key ∈ declaredKeys)) as [Hk | Hk].
    + rewrite <- (schema_keys existsSync Number_toString) in Hk.
      apply list_elem_of_fmap in Hk as ([k e] & -> & Hin).
      destruct (Hall _ Hin) as (v & Hl & Hv). cbn [fst] in *. rewrite Hl.
      eapply fieldValues_lookup; [apply schema_NoDup | exact Hin | exact Hv].
    + rewrite fieldValues_lookup_other
        by (by rewrite (schema_keys existsSync Number_toString)).
      rewrite lookup_empty. symmetry. apply not_elem_of_dom. rewrite Hdom.
      by rewrite elem_of_list_to_set.
  - apply fieldErrors_cons_inv in He as (field & Hf & Hmsg).
    destruct (Hall field Hf) as (v & _ & Hv). congruence.
Qed.

(** X7. A configuration object that [validateConfig] returns for a raw
    mapping of binary64 numbers is valid itself: validated again, with
    the file system unchanged, it is returned as it is. *)
Theorem X7_revalidation (cfg obj : gmap string value) :
  wellFormed cfg →
  outcome (validateConfig cfg) = Return (ValidatedTrainingStateValid obj) →
  outcome (validateConfig obj) = Return (ValidatedTrainingStateValid obj).
Proof.
  intros Hw Hr.
  destruct (accepted_fields _ _ Hw Hr)
    as (p & l & i & f & a & (L1 & L2 & L3 & L4 & L5 & Hdom)
        & (Vp & Hp) & (Vl & Hl & Fl) & (Vi & Hi & Fi) & Hf & (Va & Ha & Fa)).
  apply validateConfig_fixed; [done |].
  intros field Hin. apply schema_cases in Hin.
  destruct Hin as [-> | [-> | [-> | [-> | ->]]]];
    unfold TrainingState.validateField; cbn [fst snd]; unfold get.
  - rewrite L1. eexists. split; [done |]. cbn [default from_option].
    erewrite validateEntry_typed_outcome; [| reflexivity |].
    2:{ cbn [check winProbability].
        by rewrite (proj2 (winProbability_condition p Vp) Hp). }
    done.
  - rewrite L2. eexists. split; [done |]. cbn [default from_option].
    erewrite validateEntry_typed_outcome; [| reflexivity |].
    2:{ cbn [check fragmentLength]. by rewrite (integerAtLeast_ge_one l Vl Hl), Fl. }
    done.
  - rewrite L3. eexists. split; [done |]. cbn [default from_option].
    erewrite validateEntry_typed_outcome; [| reflexivity |].
    2:{ cbn [check challengeIndex]. by rewrite (integerAtLeast_ge_zero i Hi), Fi. }
    done.
  - rewrite L4. eexists. split; [done |]. cbn [default from_option].
    erewrite validateEntry_typed_outcome; [| reflexivity |].
    2:{ cbn [check challengeFile]. by rewrite Hf. }
    done.
  - rewrite L5. eexists. split; [done |]. cbn [default from_option].
    erewrite validateEntry_typed_outcome; [| reflexivity |].
    2:{ cbn [check maxAttempts]. by rewrite (integerAtLeast_ge_one a Va Ha), Fa. }
    done.
Qed.

(** X8. Spelling out the [defaultValue] of a key that is not required
    gives the same result as leaving the key out: the default passes the
    check of its own entry unchanged. *)
Theorem X8_explicit_default (key : string) (e : SchemaEntry)
    (d : Primitive (type e)) (cfg : gmap string value) :
  (key, e) ∈ schema → isRequired e = false → defaultValue e = Some d →
  outcome (validateConfig (<[key := toValue d]> cfg))
  = outcome (validateConfig (delete key cfg)).
Proof.
  intros Hin Hreq Hd. apply validateConfig_outcome_ext. intros [k' e'] Hin'.
  unfold TrainingState.validateField. cbn [fst snd]. unfold get.
  destruct (String.eqb k' key) eqn:Ek.
  - apply String.eqb_eq in Ek as ->.
    rewrite (schema_functional _ _ _ _ _ Hin' Hin), lookup_insert_eq, lookup_delete_eq.
    cbn [default from_option]. rewrite validateEntry_undefined, Hreq.
    unfold defaultValue_read. rewrite Hd. cbn [outcome snd].
    pose proof (schema_cases _ _ _ Hin) as Hc.
    destruct Hc as [Hc | [Hc | [Hc | [Hc | Hc]]]]; simplify_eq; try discriminate Hreq.
    + cbn [defaultValue challengeIndex] in Hd. injection Hd as <-. by vm_compute.
    + cbn [defaultValue maxAttempts] in Hd. injection Hd as <-. by vm_compute.
  - apply String.eqb_neq in Ek. by rewrite lookup_insert_ne, lookup_delete_ne.
Qed.

(** X9. A raw mapping in which every declared key reads as [undefined]
    (the empty mapping, or one of undeclared keys only) gives the three
    errors of the three required settings, in declaration order; no check
    is called and the file system is not probed. *)
Theorem X9_nothing_configured (cfg : gmap string value) :
  (∀ key, key ∈ declaredKeys → get cfg key = VUndefined) →
  validateConfig cfg =
    ([], Return (ValidatedTrainingStateInvalid
       ["Missing required setting 'winProbability' of type number (Probability of winning on each challenge that the program should aim for.)";
        "Missing required setting 'fragmentLength' of type number (Maximum length of the text fragment in each round.)";
        "Missing required setting 'challengeFile' of type string (Path to the file containing the textual data.)"])).
Proof.
  intros H. rewrite (validateConfig_ext _ _ cfg ∅); [by vm_compute |].
  intros key Hkey. by rewrite (H key Hkey).
Qed.

(** *** Exceptions *)

Lemma completes_or_throws cfg keys :
  completes cfg keys
  ∨ ∃ before field after e,
      keys = before ++ field :: after
      ∧ completes cfg before
      ∧ outcome (validateField cfg field) = Throw e.
Proof.
  induction keys as [| f keys IH].
  - left. intros field Hf. by apply elem_of_nil in Hf.
  - destruct (outcome (validateField cfg f)) as [ve | e] eqn:E.
    + destruct IH as [IH | (before & field & after & e & -> & Hc & He)].
      * left. apply completes_cons. split; [by exists ve | done].
      * right. exists (f :: before), field, after, e. split_and!; [done | | done].
        apply completes_cons. split; [by exists ve | done].
    + right. exists [], f, keys, e. split_and!; [done | | done].
      intros field Hf. by apply elem_of_nil in Hf.
Qed.

Lemma validateField_throws cfg field e :
  field ∈ schema →
  outcome (validateField cfg field) = Throw e →
  outcome (ToString Number_toString (get cfg field.1)) = Throw e.
Proof.
  intros Hin. unfold TrainingState.validateField. generalize (get cfg field.1). intros v H.
  destruct (String.eqb (typeof v) "undefined") eqn:Hu.
  { apply typeof_undefined in Hu as ->. by rewrite validateEntry_undefined in H. }
  assert (Hv : v ≠ VUndefined) by (intros ->; done).
  destruct (asPrimitive (type field.2) v) as [x |] eqn:E.
  - rewrite (validateEntry_typed _ _ _ _ _ E), !outcome_bind in H. simpl in H.
    destruct (schema_check_returns existsSync Number_toString field x Hin) as [r Hr].
    by rewrite Hr in H.
  - apply asPrimitive_None in E.
    rewrite (validateEntry_mismatch _ _ _ _ Hv E), outcome_bind in H.
    destruct (outcome (ToString Number_toString v)); [discriminate H | congruence].
Qed.

(** X10. [validateConfig] returns a result exactly when every value
    read under a declared key can be converted to a string by a template
    literal.  Otherwise it throws, and what it throws is the exception of
    that conversion for the first declared key, in declaration order,
    whose value cannot be converted.  Values under undeclared keys play
    no part. *)
Theorem X10_exceptions (cfg : gmap string value) :
  match outcome (validateConfig cfg) with
  | Return _ => ∀ key, key ∈ declaredKeys → convertible Number_toString (get cfg key)
  | Throw e =>
      ∃ before key after,
        declaredKeys = before ++ key :: after
        ∧ (∀ k, k ∈ before → convertible Number_toString (get cfg k))
        ∧ outcome (ToString Number_toString (get cfg key)) = Throw e
  end.
Proof.
  destruct (outcome (validateConfig cfg)) as [r | e] eqn:Ho.
  - apply (proj1 (validateConfig_returns_iff existsSync Number_toString cfg)). by exists r.
  - destruct (completes_or_throws cfg schema)
      as [Hc | (before & field & after & e' & Hs & Hc & He)].
    { rewrite (validateConfig_completes _ _ _ Hc) in Ho. done. }
    rewrite (validateConfig_throws _ _ _ _ _ _ _ Hs Hc He) in Ho.
    cbn [outcome snd] in Ho. injection Ho as ->.
    assert (Hfield : field ∈ schema)
      by (rewrite Hs; apply elem_of_app; right; left).
    exists (List.map fst before), field.1, (List.map fst after). split_and!.
    + rewrite <- (schema_keys existsSync Number_toString), Hs.
      by rewrite List.map_app.
    + intros k Hk. apply list_elem_of_fmap in Hk as (f & -> & Hf).
      apply (validateField_completes existsSync);
        [rewrite Hs; apply elem_of_app; by left |]. by apply Hc.
    + by apply validateField_throws.
Qed.

(** *** Which raw mappings are accepted *)

Lemma fragmentLength_input cfg r :
  wellFormed cfg →
  outcome (validateField cfg ("fragmentLength", fragmentLength Number_toString))
  = Return (ValidatedEntryValid r) →
  ∃ x, get cfg "fragmentLength" = VNumber x ∧ atLeast 1 x.
Proof.
  intros Hw H. apply validateEntry_valid_inv in H as [(_ & H & _) | (x & y & Hx & Hy & ->)];
    [done |].
  cbn [fst snd type fragmentLength] in *. apply asPrimitive_number in Hx.
  pose proof (get_number _ _ _ Hw Hx) as Hv. cbn [check fragmentLength] in Hy.
  destruct (ge x (ofZ 1)) eqn:E; simpl in Hy; simplify_eq.
  exists x. split; [done |]. by apply (ge_one_cases x Hv).
Qed.

Lemma challengeIndex_input cfg r :
  outcome (validateField cfg ("challengeIndex", challengeIndex Number_toString))
  = Return (ValidatedEntryValid r) →
  get cfg "challengeIndex" = VUndefined
  ∨ ∃ x, get cfg "challengeIndex" = VNumber x ∧ atLeast 0 x.
Proof.
  intros H. apply validateEntry_valid_inv in H as [(H & _) | (x & y & Hx & Hy & ->)];
    [by left | right].
  cbn [fst snd type challengeIndex] in *. apply asPrimitive_number in Hx.
  cbn [check challengeIndex] in Hy.
  destruct (ge x (ofZ 0)) eqn:E; simpl in Hy; simplify_eq.
  exists x. split; [done |]. by apply ge_zero_iff.
Qed.

Lemma maxAttempts_input cfg r :
  wellFormed cfg →
  outcome (validateField cfg ("maxAttempts", maxAttempts Number_toString))
  = Return (ValidatedEntryValid r) →
  get cfg "maxAttempts" = VUndefined
  ∨ ∃ x, get cfg "maxAttempts" = VNumber x ∧ atLeast 1 x.
Proof.
  intros Hw H. apply validateEntry_valid_inv in H as [(H & _) | (x & y & Hx & Hy & ->)];
    [by left | right].
  cbn [fst snd type maxAttempts] in *. apply asPrimitive_number in Hx.
  pose proof (get_number _ _ _ Hw Hx) as Hv. cbn [check maxAttempts] in Hy.
  destruct (ge x (ofZ 1)) eqn:E; simpl in Hy; simplify_eq.
  exists x. split; [done |]. by apply (ge_one_cases x Hv).
Qed.

(** When every step accepts, the result is the object of the accepted
    values. *)
Lemma validateConfig_all_valid cfg :
  (∀ field, field ∈ schema →
     ∃ v, outcome (validateField cfg field) = Return (ValidatedEntryValid v)) →
  outcome (validateConfig cfg)
  = Return (ValidatedTrainingStateValid (fieldValues cfg schema ∅)).
Proof.
  intros Hall.
  assert (Hc : completes cfg schema).
  { intros field Hf. destruct (Hall field Hf) as [v Hv]. by eexists. }
  rewrite (validateConfig_completes _ _ _ Hc). cbn [outcome snd].
  destruct (fieldErrors cfg schema) as [| msg errs] eqn:He; [done |].
  apply fieldErrors_cons_inv in He as (field & Hf & Hmsg).
  destruct (Hall field Hf) as [v Hv]. congruence.
Qed.

(** X13. Which raw mappings of binary64 numbers are accepted:
    [validateConfig] returns a configuration object exactly for those
    that hold a number strictly between 0 and 1 under winProbability, a
    number of at least 1 ([+Infinity] included) under fragmentLength, the
    path of a file that exists under challengeFile, and under
    challengeIndex and maxAttempts nothing (or [undefined]) or a number
    of at least 0 and of at least 1. *)
Theorem X13_acceptance (cfg : gmap string value) :
  wellFormed cfg →
  (∃ obj, outcome (validateConfig cfg) = Return (ValidatedTrainingStateValid obj))
  ↔ acceptable existsSync cfg.
Proof.
  intros Hw. split.
  - intros [obj Hr]. destruct (valid_result_fields _ _ Hr) as [_ Hfields].
    destruct (Hfields ("winProbability", winProbability Number_toString))
      as (v1 & H1 & _); [in_schema |].
    destruct (Hfields ("fragmentLength", fragmentLength Number_toString))
      as (v2 & H2 & _); [in_schema |].
    destruct (Hfields ("challengeIndex", challengeIndex Number_toString))
      as (v3 & H3 & _); [in_schema |].
    destruct (Hfields ("challengeFile", challengeFile existsSync))
      as (v4 & H4 & _); [in_schema |].
    destruct (Hfields ("maxAttempts", maxAttempts Number_toString))
      as (v5 & H5 & _); [in_schema |].
    apply (winProbability_accepted _ _ Hw) in H1 as (p & Hp & _ & _ & Hp').
    apply (fragmentLength_input _ _ Hw) in H2.
    apply challengeIndex_input in H3.
    apply challengeFile_accepted in H4 as (f & _ & Hf & Hf').
    apply (maxAttempts_input _ _ Hw) in H5.
    unfold acceptable. split_and!; [by exists p | done | done | by exists f | done].
  - intros ((p & Gp & Hp) & (l & Gl & Hl) & Hi & (f & Gf & Hf) & Ha).
    eexists. apply validateConfig_all_valid. intros field Hin.
    apply schema_cases in Hin.
    destruct Hin as [-> | [-> | [-> | [-> | ->]]]];
      unfold TrainingState.validateField; cbn [fst snd].
    + rewrite Gp. eexists. erewrite validateEntry_typed_outcome; [| reflexivity |].
      2:{ cbn [check winProbability].
          by rewrite (proj2 (winProbability_condition p (get_number _ _ _ Hw Gp)) Hp). }
      done.
    + rewrite Gl. eexists. erewrite validateEntry_typed_outcome; [| reflexivity |].
      2:{ cbn [check fragmentLength].
          by rewrite (proj2 (ge_one_cases l (get_number _ _ _ Hw Gl)) Hl). }
      done.
    + destruct Hi as [-> | (i & -> & Hi)].
      * rewrite validateEntry_undefined. by eexists.
      * eexists. erewrite validateEntry_typed_outcome; [| reflexivity |].
        2:{ cbn [check challengeIndex]. by rewrite (proj2 (ge_zero_iff i) Hi). }
        done.
    + rewrite Gf. eexists. erewrite validateEntry_typed_outcome; [| reflexivity |].
      2:{ cbn [check challengeFile]. by rewrite Hf. }
      done.
    + destruct Ha as [-> | (a & Ga & Ha)].
      * rewrite validateEntry_undefined. by eexists.
      * rewrite Ga. eexists. erewrite validateEntry_typed_outcome; [| reflexivity |].
        2:{ cbn [check maxAttempts].
            by rewrite (proj2 (ge_one_cases a (get_number _ _ _ Hw Ga)) Ha). }
        done.
Qed.

(** *** The errors of a run that no exception ends *)

Lemma validateEntry_invalid_inv key e v error :
  outcome (validateEntry key e v) = Return (ValidatedEntryInvalid error) →
  complaint Number_toString key e v error.
Proof.
  intros H. destruct (String.eqb (typeof v) "undefined") eqn:Hu.
  { apply typeof_undefined in Hu as ->. rewrite validateEntry_undefined in H.
    left. destruct (isRequired e); simpl in H; by simplify_eq. }
  assert (Hv : v ≠ VUndefined) by (intros ->; done).
  destruct (asPrimitive (type e) v) as [x |] eqn:E.
  - right; right. exists x. split_and!; [done | by apply (asPrimitive_Some _ _ _ E) |].
    rewrite (validateEntry_typed _ _ _ _ _ E), !outcome_bind in H. simpl in H.
    destruct (outcome (check e x)) as [[y | msg] | exn] eqn:Ec; simpl in H; by simplify_eq.
  - pose proof (proj1 (asPrimitive_None _ _) E) as Ht. right; left.
    rewrite (validateEntry_mismatch _ _ _ _ Hv Ht), outcome_bind in H.
    destruct (outcome (ToString Number_toString v)) as [shown | exn] eqn:Es;
      simpl in H; simplify_eq.
    split_and!; [done | done |]. by exists shown.
Qed.

Lemma field_accepted_iff cfg field :
  wellFormed cfg → field ∈ schema →
  (∃ v, outcome (validateField cfg field) = Return (ValidatedEntryValid v))
  ↔ acceptableAt existsSync cfg field.1.
Proof.
  intros Hw Hin. pose proof (schema_cases _ _ _ Hin) as Hc. split.
  - intros [v Hv]. unfold acceptableAt.
    destruct Hc as [-> | [-> | [-> | [-> | ->]]]]; cbn [fst].
    + apply (winProbability_accepted _ _ Hw) in Hv as (p & Hp & _ & _ & Hp'). left. eauto.
    + apply (fragmentLength_input _ _ Hw) in Hv. right; left. eauto.
    + apply challengeIndex_input in Hv. right; right; left. eauto.
    + apply challengeFile_accepted in Hv as (f & _ & Hf & Hf'). do 3 right; left. eauto.
    + apply (maxAttempts_input _ _ Hw) in Hv. do 4 right. eauto.
  - intros Hacc.
    assert (Hkey : ∀ e, (field.1, e) ∈ schema → field = (field.1, e)).
    { intros e He. destruct field as [k e0]. cbn [fst] in *.
      by rewrite (schema_functional _ _ _ _ _ Hin He). }
    unfold acceptableAt in Hacc. unfold TrainingState.validateField.
    destruct Hacc as [[Hk H] | [[Hk H] | [[Hk H] | [[Hk H] | [Hk H]]]]]; rewrite Hk in *.
    + rewrite (Hkey (winProbability Number_toString)) by in_schema. cbn [fst snd].
      destruct H as (p & Gp & Hp). rewrite Gp. eexists.
      erewrite validateEntry_typed_outcome; [| reflexivity |].
      2:{ cbn [check winProbability].
          by rewrite (proj2 (winProbability_condition p (get_number _ _ _ Hw Gp)) Hp). }
      done.
    + rewrite (Hkey (fragmentLength Number_toString)) by in_schema. cbn [fst snd].
      destruct H as (l & Gl & Hl). rewrite Gl. eexists.
      erewrite validateEntry_typed_outcome; [| reflexivity |].
      2:{ cbn [check fragmentLength].
          by rewrite (proj2 (ge_one_cases l (get_number _ _ _ Hw Gl)) Hl). }
      done.
    + rewrite (Hkey (challengeIndex Number_toString)) by in_schema. cbn [fst snd].
      destruct H as [-> | (i & -> & Hi)].
      * rewrite validateEntry_undefined. by eexists.
      * eexists. erewrite validateEntry_typed_outcome; [| reflexivity |].
        2:{ cbn [check challengeIndex]. by rewrite (proj2 (ge_zero_iff i) Hi). }
        done.
    + rewrite (Hkey (challengeFile existsSync)) by in_schema. cbn [fst snd].
      destruct H as (f & Gf & Hf). rewrite Gf. eexists.
      erewrite validateEntry_typed_outcome; [| reflexivity |].
      2:{ cbn [check challengeFile]. by rewrite Hf. }
      done.
    + rewrite (Hkey (maxAttempts Number_toString)) by in_schema. cbn [fst snd].
      destruct H as [-> | (a & Ga & Ha)].
      * rewrite validateEntry_undefined. by eexists.
      * rewrite Ga. eexists. erewrite validateEntry_typed_outcome; [| reflexivity |].
        2:{ cbn [check maxAttempts].
            by rewrite (proj2 (ge_one_cases a (get_number _ _ _ Hw Ga)) Ha). }
        done.
Qed.

Lemma invalidFields_elem cfg keys field :
  field ∈ TrainingState.invalidFields Number_toString cfg keys
  ↔ field ∈ keys
    ∧ ∃ error, outcome (validateField cfg field) = Return (ValidatedEntryInvalid error).
Proof.
  unfold TrainingState.invalidFields.
  rewrite !list_elem_of_In, filter_In, bool_decide_eq_true. apply and_iff_compat_l.
  destruct (outcome (validateField cfg field)) as [[v | msg] | exn]; simpl; split.
  all: intros [x Hx]; simplify_eq; by eexists.
Qed.

Lemma map_sublist {A B} (f : A → B) (l k : list A) :
  l `sublist_of` k → List.map f l `sublist_of` List.map f k.
Proof. induction 1; simpl; by constructor. Qed.

Lemma Forall2_elem {A B} (P : A → B → Prop) (l0 l : list A) (k : list B) :
  (∀ x, x ∈ l → x ∈ l0) → Forall2 P l k → Forall2 (λ x y, x ∈ l0 ∧ P x y) l k.
Proof.
  intros Hsub HF. induction HF as [| x y l k Hxy HF IH]; constructor.
  - split; [apply Hsub; left | done].
  - apply IH. intros z Hz. apply Hsub. by right.
Qed.

(** X14. Aggregation, for a raw mapping of binary64 numbers in which
    every declared key reads as a value that a template literal can
    convert, so that no step throws.  [validateConfig] returns, having
    run the step of every declared key.  The error strings of the
    result stand one for one, and in declaration order, for the
    declared keys whose value is not acceptable: N such keys give N
    error strings.  The error of a key is of one of three kinds (the
    required setting is missing, the value is of another type, the
    check of the entry turned the value down), and the result is a
    configuration object exactly when there is none. *)
Theorem X14_errors_counted (cfg : gmap string value) :
  wellFormed cfg →
  (∀ key, key ∈ declaredKeys → convertible Number_toString (get cfg key)) →
  ∃ r bad,
    validateConfig cfg = (fieldTraces cfg schema, Return r)
    ∧ bad `sublist_of` declaredKeys
    ∧ (∀ key, key ∈ declaredKeys → key ∈ bad ↔ ¬ acceptableAt existsSync cfg key)
    ∧ length (errorsOf r) = length bad
    ∧ Forall2
        (λ key error,
           ∃ e, (key, e) ∈ schema ∧ complaint Number_toString key e (get cfg key) error)
        bad (errorsOf r)
    ∧ (bad = [] ↔ ∃ obj, r = ValidatedTrainingStateValid obj)
    ∧ (bad ≠ [] ↔ r = ValidatedTrainingStateInvalid (errorsOf r)).
Proof.
  intros Hw Hconv.
  pose proof (proj2 (completes_convertible existsSync Number_toString cfg) Hconv) as Hc.
  rewrite (validateConfig_completes _ _ _ Hc).
  pose proof (fieldErrors_invalidFields Number_toString cfg schema) as HF.
  set (fields := TrainingState.invalidFields Number_toString cfg schema) in *.
  eexists. exists (List.map fst fields).
  assert (He : ∀ obj,
    errorsOf match fieldErrors cfg schema with
             | [] => ValidatedTrainingStateValid obj
             | _ :: _ => ValidatedTrainingStateInvalid (fieldErrors cfg schema)
             end = fieldErrors cfg schema)
    by (intros obj; by destruct (fieldErrors cfg schema)).
  rewrite He.
  assert (Hlen : length (fieldErrors cfg schema) = length (List.map fst fields)).
  { rewrite length_map. symmetry. by eapply Forall2_length. }
  split_and!.
  - reflexivity.
  - rewrite <- (schema_keys existsSync Number_toString).
    apply map_sublist, invalidFields_sublist.
  - intros key Hkey. rewrite <- (schema_keys existsSync Number_toString) in Hkey.
    apply list_elem_of_fmap in Hkey as ([k e] & -> & Hin). cbn [fst]. split.
    + intros Hbad Hacc.
      apply list_elem_of_fmap in Hbad as ([k' e'] & Hk & Hin'). cbn [fst] in Hk. subst k'.
      apply invalidFields_elem in Hin' as [Hin' [error Herr]].
      rewrite <- (schema_functional _ _ _ _ _ Hin Hin') in Herr.
      apply (field_accepted_iff cfg (k, e) Hw Hin) in Hacc as [v Hv]. congruence.
    + intros Hacc. apply (list_elem_of_fmap_2' fst _ (k, e)); [| done].
      apply invalidFields_elem. split; [done |].
      destruct (Hc _ Hin) as [[v | error] Hve]; [| by eexists].
      destruct Hacc. apply (field_accepted_iff cfg (k, e) Hw Hin). by eexists.
  - exact Hlen.
  - apply Forall2_fmap_l.
    assert (Hsub : ∀ field, field ∈ fields → field ∈ schema).
    { intros field Hf. by apply invalidFields_elem in Hf as [Hf _]. }
    eapply Forall2_impl; [exact (Forall2_elem _ _ _ _ Hsub HF) |].
    intros [k e] error [Hin Herr]. cbn [fst]. exists e. split; [done |].
    by apply validateEntry_invalid_inv.
  - destruct (fieldErrors cfg schema) as [| msg errs] eqn:Hfe.
    + split; [by eexists |]. intros _. by destruct (List.map fst fields).
    + split; [| by intros [obj Hobj]]. intros Hnil. by rewrite Hnil in Hlen.
  - destruct (fieldErrors cfg schema) as [| msg errs] eqn:Hfe.
    + split; [| done]. intros Hne. by destruct (List.map fst fields).
    + split; [done |]. intros _ Hnil. by rewrite Hnil in Hlen.
Qed.

(** *** The file system *)

Lemma challengeFile_step_ext (existsSync' : string → bool) v :
  (∀ path, v = VString path → existsSync path = existsSync' path) →
  validateEntry "challengeFile" (challengeFile existsSync) v
  = validateEntry "challengeFile" (challengeFile existsSync') v.
Proof.
  intros H. destruct v; try done.
  unfold TrainingState.validateEntry. simpl. by rewrite (H s).
Qed.

Lemma validateConfig_fs_ext (existsSync' : string → bool) (cfg : gmap string value) :
  (∀ path, get cfg "challengeFile" = VString path →
     existsSync path = existsSync' path) →
  validateConfig cfg = TrainingState.validateConfig existsSync' Number_toString cfg.
Proof.
  intros H. rewrite !validateConfig_unfold. f_equal.
  unfold trainingStateSchema.
  do 3 (rewrite !loop_cons; apply bind_ext; intros [? | ?]);
    rewrite !loop_cons; unfold TrainingState.validateField; cbn [fst snd];
    by rewrite (challengeFile_step_ext existsSync' _ H).
Qed.

(** X12. The run depends on the file system only through the answer for
    the path read under challengeFile: two file systems that agree on
    that path give the same run. *)
Theorem X12_file_system_read_once (existsSync' : string → bool)
    (cfg : gmap string value) :
  (∀ path, get cfg "challengeFile" = VString path →
     existsSync path = existsSync' path) →
  validateConfig cfg = TrainingState.validateConfig existsSync' Number_toString cfg.
Proof. apply validateConfig_fs_ext. Qed.

(** *** The script *)

(** X11. The script [main.ts] enters the training loop, with the state
    [{ winProbability: 0.5, fragmentLength: 80, challengeIndex: 0,
       challengeFile: './example_text.txt', maxAttempts: 3 }] and having
    written nothing, if the file [./example_text.txt] exists; if it does
    not, the script writes the error of challengeFile and the count of
    one error, and exits with status 1. *)
Theorem X11_main :
  outcome (Main.main existsSync Number_toString) =
    Return (if existsSync "./example_text.txt"
            then Main.TrainingLoopEntered Samples.mainResult
            else Main.Exited
                   ["ERROR: Couldn't find the file " +:+ quote
                      +:+ "./example_text.txt" +:+ quote +:+ ".";
                    "There were 1 errors in the configuration. Exit."]
                   1).
Proof.
  unfold Main.main.
  assert (Hfs : validateConfig Samples.mainConfig =
                TrainingState.validateConfig
                  (λ _, existsSync "./example_text.txt") Number_toString Samples.mainConfig).
  { apply validateConfig_fs_ext. intros path Hpath. vm_compute in Hpath. by simplify_eq. }
  rewrite Hfs. destruct (existsSync "./example_text.txt"); vm_compute; reflexivity.
Qed.

End Properties.

(** ** The further properties at sample inputs *)

Section PropertyWitnesses.

Import Number Range Trace.

Local Abbreviation host_existsSync := Samples.existsSync.
Local Abbreviation host_toString := Samples.Number_toString.
Local Abbreviation schema := (trainingStateSchema host_existsSync host_toString).
Local Abbreviation validateConfig := (TrainingState.validateConfig host_existsSync host_toString).

Local Ltac in_schema :=
  unfold trainingStateSchema;
  repeat first [apply list_elem_of_here | apply list_elem_of_further].

Lemma mainConfig_wellFormed : wellFormed Samples.mainConfig.
Proof.
  intros key n H. unfold Samples.mainConfig in H.
  repeat (apply lookup_insert_Some in H as [[_ H] | [_ H]];
          [first [discriminate H | injection H as <-; by vm_compute] |]).
  by rewrite lookup_empty in H.
Qed.

Lemma X1_witness :
  valid (ofDyadic 1 (-1)) = true
  ∧ strictlyBetween01 (ofDyadic 1 (-1))
  ∧ check (winProbability host_toString) (ofDyadic 1 (-1)) =
      ([], Return (ValidatedEntryValid (ofDyadic 1 (-1)))).
Proof.
  assert (Hv : valid (ofDyadic 1 (-1)) = true) by (vm_compute; reflexivity).
  assert (Hb : strictlyBetween01 (ofDyadic 1 (-1))).
  { eexists. split_and!; [vm_compute; reflexivity | |]; vm_compute; reflexivity. }
  split_and!; [exact Hv | exact Hb |].
  exact (proj1 (X1_winProbability_check host_toString _ Hv) Hb).
Defined.

Lemma X2_witness :
  valid (S754_zero true) = true
  ∧ (S754_zero true = Infinity ∨ ∃ q, toQ (S754_zero true) = Some q ∧ (0 <= q)%Q)
  ∧ check (challengeIndex host_toString) (S754_zero true) =
      ([], Return (ValidatedEntryValid (floor (S754_zero true))))
  ∧ valid (floor (S754_zero true)) = true
  ∧ integerAtLeast 0 (floor (S754_zero true)).
Proof.
  assert (Hv : valid (S754_zero true) = true) by reflexivity.
  assert (Hq : S754_zero true = Infinity ∨ ∃ q, toQ (S754_zero true) = Some q ∧ (0 <= q)%Q).
  { right. exists 0%Q. split; [reflexivity | vm_compute; discriminate]. }
  split_and!; [exact Hv | exact Hq | ..];
    apply (proj1 (X2_challengeIndex_check host_toString _ Hv) Hq).
Defined.

Lemma X3_witness :
  valid Infinity = true
  ∧ (Infinity = Infinity ∨ ∃ q, toQ Infinity = Some q ∧ (1 <= q)%Q)
  ∧ check (maxAttempts host_toString) Infinity =
      ([], Return (ValidatedEntryValid (floor Infinity)))
  ∧ valid (floor Infinity) = true
  ∧ integerAtLeast 1 (floor Infinity).
Proof.
  assert (Hv : valid Infinity = true) by reflexivity.
  assert (Hq : Infinity = Infinity ∨ ∃ q, toQ Infinity = Some q ∧ (1 <= q)%Q)
    by (left; reflexivity).
  split_and!; [exact Hv | exact Hq | ..];
    apply (proj1 (X3_maxAttempts_check host_toString _ Hv) Hq).
Defined.

Lemma X6_witness :
  wellFormed Samples.mainConfig
  ∧ outcome (validateConfig Samples.mainConfig)
    = Return (ValidatedTrainingStateValid Samples.mainResult)
  ∧ ∃ p l i f a,
      (Samples.mainResult !! "winProbability" = Some (VNumber p)
       ∧ Samples.mainResult !! "fragmentLength" = Some (VNumber l)
       ∧ Samples.mainResult !! "challengeIndex" = Some (VNumber i)
       ∧ Samples.mainResult !! "challengeFile" = Some (VString f)
       ∧ Samples.mainResult !! "maxAttempts" = Some (VNumber a)
       ∧ dom Samples.mainResult = list_to_set declaredKeys)
      ∧ (valid p = true ∧ strictlyBetween01 p)
      ∧ (valid l = true ∧ integerAtLeast 1 l ∧ floor l = l)
      ∧ (valid i = true ∧ integerAtLeast 0 i ∧ floor i = i)
      ∧ host_existsSync f = true
      ∧ (valid a = true ∧ integerAtLeast 1 a ∧ floor a = a).
Proof.
  assert (H : outcome (validateConfig Samples.mainConfig)
              = Return (ValidatedTrainingStateValid Samples.mainResult))
    by (vm_compute; reflexivity).
  split_and!; [exact mainConfig_wellFormed | exact H |].
  exact (X6_valid_configuration host_existsSync host_toString _ _ mainConfig_wellFormed H).
Defined.

Lemma X7_witness :
  wellFormed Samples.mainConfig
  ∧ outcome (validateConfig Samples.mainConfig)
    = Return (ValidatedTrainingStateValid Samples.mainResult)
  ∧ outcome (validateConfig Samples.mainResult)
    = Return (ValidatedTrainingStateValid Samples.mainResult).
Proof.
  assert (H : outcome (validateConfig Samples.mainConfig)
              = Return (ValidatedTrainingStateValid Samples.mainResult))
    by (vm_compute; reflexivity).
  split_and!; [exact mainConfig_wellFormed | exact H |].
  exact (X7_revalidation host_existsSync host_toString _ _ mainConfig_wellFormed H).
Defined.

Lemma X8_witness :
  ("maxAttempts", maxAttempts host_toString) ∈ schema
  ∧ isRequired (maxAttempts host_toString) = false
  ∧ defaultValue (maxAttempts host_toString) = Some (ofZ 3)
  ∧ outcome (validateConfig (<["maxAttempts" := VNumber (ofZ 3)]> Samples.mainConfig))
    = outcome (validateConfig (delete "maxAttempts" Samples.mainConfig)).
Proof.
  assert (H1 : ("maxAttempts", maxAttempts host_toString) ∈ schema) by in_schema.
  assert (H2 : isRequired (maxAttempts host_toString) = false) by reflexivity.
  assert (H3 : defaultValue (maxAttempts host_toString) = Some (ofZ 3)) by reflexivity.
  split_and!; [exact H1 | exact H2 | exact H3 |].
  exact (X8_explicit_default host_existsSync host_toString _ _ _ Samples.mainConfig H1 H2 H3).
Defined.

Lemma X9_witness :
  (∀ key, key ∈ declaredKeys →
     get (<["verbose" := VBoolean true]> ∅) key = VUndefined)
  ∧ validateConfig (<["verbose" := VBoolean true]> ∅) =
      ([], Return (ValidatedTrainingStateInvalid
         ["Missing required setting 'winProbability' of type number (Probability of winning on each challenge that the program should aim for.)";
          "Missing required setting 'fragmentLength' of type number (Maximum length of the text fragment in each round.)";
          "Missing required setting 'challengeFile' of type string (Path to the file containing the textual data.)"])).
Proof.
  assert (H : ∀ key, key ∈ declaredKeys →
            get (<["verbose" := VBoolean true]> ∅) key = VUndefined).
  { intros key Hkey. unfold declaredKeys in Hkey.
    repeat (apply elem_of_cons in Hkey as [-> | Hkey]; [vm_compute; reflexivity |]).
    by apply elem_of_nil in Hkey. }
  split; [exact H |].
  exact (X9_nothing_configured host_existsSync host_toString _ H).
Defined.

Lemma X12_witness :
  (∀ path, get Samples.mainConfig "challengeFile" = VString path →
     host_existsSync path = true)
  ∧ validateConfig Samples.mainConfig
    = TrainingState.validateConfig (λ _, true) host_toString Samples.mainConfig.
Proof.
  assert (H : ∀ path, get Samples.mainConfig "challengeFile" = VString path →
            host_existsSync path = (λ _ : string, true) path).
  { intros path Hpath. vm_compute in Hpath. injection Hpath as <-. reflexivity. }
  split; [exact H |].
  exact (X12_file_system_read_once host_existsSync host_toString (λ _, true) _ H).
Defined.

Lemma wordLengthConfig_wellFormed : wellFormed Samples.wordLengthConfig.
Proof.
  intros key n H. unfold Samples.wordLengthConfig in H.
  repeat (apply lookup_insert_Some in H as [[_ H] | [_ H]];
          [first [discriminate H | injection H as <-; by vm_compute] |]).
  by rewrite lookup_empty in H.
Qed.

Lemma X14_witness :
  wellFormed Samples.wordLengthConfig
  ∧ (∀ key, key ∈ declaredKeys →
       convertible host_toString (get Samples.wordLengthConfig key))
  ∧ outcome (validateConfig Samples.wordLengthConfig) =
      Return (ValidatedTrainingStateInvalid
        ["The probability must be strictly between 0 and 1, but was <number>";
         "Invalid type of fragmentLength, expected a number, but got: len";
         "Missing required setting 'challengeFile' of type string (Path to the file containing the textual data.)";
         "Expected a positive integer number of attempts, but got 0."])
  ∧ ∃ r bad,
      validateConfig Samples.wordLengthConfig =
        (TrainingState.fieldTraces host_toString Samples.wordLengthConfig schema, Return r)
      ∧ bad `sublist_of` declaredKeys
      ∧ (∀ key, key ∈ declaredKeys →
           key ∈ bad ↔ ¬ acceptableAt host_existsSync Samples.wordLengthConfig key)
      ∧ length (errorsOf r) = length bad
      ∧ Forall2
          (λ key error,
             ∃ e, (key, e) ∈ schema
                  ∧ complaint host_toString key e (get Samples.wordLengthConfig key) error)
          bad (errorsOf r)
      ∧ (bad = [] ↔ ∃ obj, r = ValidatedTrainingStateValid obj)
      ∧ (bad ≠ [] ↔ r = ValidatedTrainingStateInvalid (errorsOf r)).
Proof.
  assert (H : ∀ key, key ∈ declaredKeys →
            convertible host_toString (get Samples.wordLengthConfig key)).
  { intros key Hkey. unfold declaredKeys in Hkey.
    repeat (apply elem_of_cons in Hkey as [-> | Hkey];
            [eexists; vm_compute; reflexivity |]).
    by apply elem_of_nil in Hkey. }
  split_and!; [exact wordLengthConfig_wellFormed | exact H | vm_compute; reflexivity |].
  exact (X14_errors_counted host_existsSync host_toString _ wordLengthConfig_wellFormed H).
Defined.

Lemma X13_witness :
  wellFormed Samples.mainConfig
  ∧ ((∃ obj, outcome (validateConfig Samples.mainConfig)
             = Return (ValidatedTrainingStateValid obj))
     ↔ acceptable host_existsSync Samples.mainConfig).
Proof.
  split; [exact mainConfig_wellFormed |].
  exact (X13_acceptance host_existsSync host_toString _ mainConfig_wellFormed).
Defined.

End PropertyWitnesses.
